(** * pynapple.io.interface_npz: the NPZ file loader

    A shallow embedding of [NPZFile.__init__] and [NPZFile.load]
    (pynapple/io/interface_npz.py), with the part of numpy the loader
    relies on, and the properties of the classification and of the
    reconstruction of pynapple objects. *)

From Stdlib Require Import QArith Qcanon.
From stdpp Require Import base option list gmap strings numbers sorting.
Close Scope Qc_scope.
Close Scope Q_scope.
Open Scope string_scope.
Open Scope list_scope.

(** ** Exceptions and results *)

(** The exceptions the loader can raise. [KeyError key] is what the archive
    raises when [key] is not one of its names. [ArrayError] stands for the
    [TypeError], [IndexError] or [ValueError] numpy and Python raise when an
    array does not have the shape an operation needs ([len] or iteration of
    a 0-d array, a boolean index of the wrong shape, an array used as a
    dictionary key). *)
Inductive exn : Type :=
| KeyError (key : string)
| ArrayError.

Inductive result (A : Type) : Type :=
| Ok (a : A)
| Raise (e : exn).
Arguments Ok {A} a.
Arguments Raise {A} e.

#[global] Instance result_ret : MRet result := λ A a, Ok a.
#[global] Instance result_bind : MBind result := λ A B f m,
  match m with
  | Ok a => f a
  | Raise e => Raise e
  end.
#[global] Instance result_fmap : FMap result := λ A B f m,
  match m with
  | Ok a => Ok (f a)
  | Raise e => Raise e
  end.

(** ** The part of numpy the loader uses *)

(** An array element. Numeric dtypes are represented by the value they
    denote, so that Python's [==] on elements (which compares an integer and
    a real by value) is equality here; not-a-number is outside the model.
    [SStr] is an element of a unicode array, an instance of [np.str_]. *)
Inductive scalar : Type :=
| SNum (q : Qc)
| SStr (s : string).

#[global] Instance scalar_eq_dec : EqDecision scalar.
Proof. solve_decision. Defined.

Definition int (z : Z) : scalar := SNum (Qc_of_Z z).
Definition real (n : Z) (d : positive) : scalar := SNum (Q2Qc (Qmake n d)).

(** The order [np.unique] sorts with: numbers by value, strings
    lexicographically. Arrays are homogeneous, so the order between a number
    and a string is never consulted on an array read from a file; numbers
    are put first. *)
Definition scalar_le (x y : scalar) : Prop :=
  match x, y with
  | SNum p, SNum q => (p ≤ q)%Qc
  | SNum _, SStr _ => True
  | SStr _, SNum _ => False
  | SStr a, SStr b => String.leb a b = true
  end.

#[global] Instance scalar_le_dec : RelDecision scalar_le.
Proof. intros [p|a] [q|b]; simpl; apply _. Defined.

(** An n-dimensional array: its shape and its elements in row-major order.
    A 0-d array has shape [[]], a vector of [n] elements shape [[n]]. *)
Record ndarray : Type := NdArray {
  shape : list nat;
  flat : list scalar;
}.

#[global] Instance ndarray_eq_dec : EqDecision ndarray.
Proof. solve_decision. Defined.

(** What indexing or iterating an array yields: an element when the array is
    a vector, a sub-array when it has more dimensions. *)
Inductive item : Type :=
| ItemScalar (x : scalar)
| ItemArray (a : ndarray).

Module np.

(** The 1-d array of the given elements. *)
Definition array (xs : list scalar) : ndarray := NdArray [length xs] xs.

(** [a.ndim] *)
Definition ndim (a : ndarray) : nat := length (shape a).

(** [len(a)]: the size of the first axis; a 0-d array has none. *)
Definition len (a : ndarray) : result nat :=
  match shape a with
  | [] => Raise ArrayError
  | n :: _ => Ok n
  end.

(** The number of elements of an array of shape [dims]. *)
Definition size (dims : list nat) : nat := foldr Nat.mul 1 dims.

(** [a[0]] *)
Definition getitem0 (a : ndarray) : result item :=
  match shape a with
  | [] => Raise ArrayError
  | 0 :: _ => Raise ArrayError
  | [S _] =>
      match flat a with
      | x :: _ => Ok (ItemScalar x)
      | [] => Raise ArrayError
      end
  | S _ :: rest => Ok (ItemArray (NdArray rest (take (size rest) (flat a))))
  end.

(** The [n] consecutive blocks of [sz] elements of [xs]. *)
Fixpoint rows (n sz : nat) (xs : list scalar) : list (list scalar) :=
  match n with
  | 0 => []
  | S n' => take sz xs :: rows n' sz (drop sz xs)
  end.

(** [for k in a]: the entries along the first axis. *)
Definition iter (a : ndarray) : result (list item) :=
  match shape a with
  | [] => Raise ArrayError
  | [_] => Ok (ItemScalar <$> flat a)
  | n :: rest => Ok ((λ r, ItemArray (NdArray rest r)) <$> rows n (size rest) (flat a))
  end.

(** A boolean array, as [a == k] produces it. *)
Record mask : Type := Mask {
  mask_shape : list nat;
  mask_bits : list bool;
}.

(** [a == k] for an element [k]: elementwise, of the shape of [a]. *)
Definition eq (a : ndarray) (k : scalar) : mask :=
  Mask (shape a) ((λ x, bool_decide (x = k)) <$> flat a).

(** The blocks of [sz] elements of [xs] at the positions where [bits] holds. *)
Fixpoint select (sz : nat) (bits : list bool) (xs : list scalar) : list scalar :=
  match bits with
  | [] => []
  | b :: bits' =>
      (if b then take sz xs else []) ++ select sz bits' (drop sz xs)
  end.

Definition count (bits : list bool) : nat := length (filter Is_true bits).

(** [a[m]] for a boolean array [m]: the shape of [m] must be the leading
    part of the shape of [a]; the result keeps the entries of [a] under a
    true bit, in order, along one new first axis. *)
Definition getitem_mask (a : ndarray) (m : mask) : result ndarray :=
  if bool_decide (mask_shape m `prefix_of` shape a) then
    let rest := drop (length (mask_shape m)) (shape a) in
    Ok (NdArray (count (mask_bits m) :: rest)
                (select (size rest) (mask_bits m) (flat a)))
  else Raise ArrayError.

(** [np.unique(a)]: the sorted distinct elements of [a], as a vector. *)
Definition unique (a : ndarray) : ndarray :=
  array (merge_sort scalar_le (remove_dups (flat a))).

(** [bool(b)] for a boolean array: defined for one element (and, with a
    deprecation warning, false for none). *)
Definition truth (bits : list bool) : result bool :=
  match bits with
  | [] => Ok false
  | [b] => Ok b
  | _ => Raise ArrayError
  end.

End np.

(** [a in l] for an array [a] and a list of strings [l]: Python compares [a]
    with each member in turn by [==], which numpy answers elementwise, and
    takes the truth value of each answer. *)
Fixpoint array_in (a : ndarray) (l : list string) : result bool :=
  match l with
  | [] => Ok false
  | x :: l' =>
      b ← np.truth (np.mask_bits (np.eq a (SStr x)));
      if b : bool then Ok true else array_in a l'
  end.

(** ** The objects of pynapple.core *)

Module nap.

(** Modelled from the spec: the classes of pynapple.core, which the loader
    imports but which are not among the sources. An object is represented
    by the arguments its constructor is called with: "every reconstructed
    timed object is associated with exactly one TimeSupport", an
    [IntervalSet] "constructed from the container's start/end arrays". *)
Record IntervalSet : Type := mkIntervalSet {
  start : ndarray;
  end_ : ndarray;
}.

(** Modelled from the spec: the members of a group, [Ts(t, time_support)],
    "a sequence of timestamps only", and [Tsd(t, d, time_support)],
    "timestamps + one-dimensional data values". *)
Inductive Base : Type :=
| Ts (t : ndarray) (time_support : IntervalSet)
| Tsd (t d : ndarray) (time_support : IntervalSet).

Definition index (m : Base) : ndarray :=
  match m with Ts t _ | Tsd t _ _ => t end.

Definition time_support (m : Base) : IntervalSet :=
  match m with Ts _ ts | Tsd _ _ ts => ts end.

(** Modelled from the spec: a [TsGroup] is "a mapping from integer/key
    identifier to an independent Ts or Tsd, all sharing one TimeSupport,
    plus optional per-key metadata columns". [data] is the dictionary the
    constructor receives, in insertion order; [skip_validation] is its
    flag "construction-time validation bypassed"; [metadata] is what
    [set_info] attaches. *)
Record TsGroup : Type := mkTsGroup {
  data : list (scalar * Base);
  group_time_support : IntervalSet;
  skip_validation : bool;
  metadata : gmap string ndarray;
}.

(** Modelled from the spec: [len(tsgroup)] is "the number of groups". *)
Definition len (g : TsGroup) : nat := length (data g).

(** Modelled from the spec: [tsgroup.set_info], called with the entries of
    [metainfo] as keyword arguments; "accepted columns are attached to the
    TsGroup as named metadata". *)
Definition set_info (g : TsGroup) (metainfo : gmap string ndarray) : TsGroup :=
  mkTsGroup (data g) (group_time_support g) (skip_validation g) metainfo.

End nap.

(** What [load] returns: a pynapple object, or the archive itself. *)
Inductive loaded : Type :=
| LTsGroup (g : nap.TsGroup)
| LTsdFrame (t d : ndarray) (time_support : nap.IntervalSet) (columns : ndarray)
| LTsdTensor (t d : ndarray) (time_support : nap.IntervalSet)
| LTsd (t d : ndarray) (time_support : nap.IntervalSet)
| LTs (t : ndarray) (time_support : nap.IntervalSet)
| LIntervalSet (time_support : nap.IntervalSet)
| LFile (file : gmap string ndarray).

(** ** Python dictionaries *)

(** [d[k] = v] on a dictionary kept in insertion order: the value of an
    existing key is replaced where it stands, a new key goes last. *)
Fixpoint dict_set {V : Type} (k : scalar) (v : V) (d : list (scalar * V))
  : list (scalar * V) :=
  match d with
  | [] => [(k, v)]
  | (k', v') :: d' =>
      if decide (k' = k) then (k', v) :: d' else (k', v') :: dict_set k v d'
  end.

Fixpoint dict_get {V : Type} (k : scalar) (d : list (scalar * V)) : option V :=
  match d with
  | [] => None
  | (k', v') :: d' => if decide (k' = k) then Some v' else dict_get k d'
  end.

(** ** NPZFile *)

(** The archive [np.load] opens is a mapping from names to arrays;
    [self.file[key]] raises [KeyError] on a name it does not have. *)
Definition getitem (file : gmap string ndarray) (key : string) : result ndarray :=
  match file !! key with
  | Some a => Ok a
  | None => Raise (KeyError key)
  end.

(** [set(l).issubset(k)] *)
Definition issubset (l : list string) (k : gset string) : bool :=
  bool_decide (list_to_set l ⊆ k).

Record NPZFile : Type := mkNPZFile {
  file : gmap string ndarray;
  type : string;
}.

Definition possible : list string :=
  ["Ts"; "Tsd"; "TsdFrame"; "TsdTensor"; "TsGroup"; "IntervalSet"].

(** First check of [__init__]: the type the archive declares, or [""]. *)
Definition explicit_type (file : gmap string ndarray) : result string :=
  if bool_decide ("type" ∈ dom file) then
    ty ← getitem file "type";
    n ← np.len ty;
    if bool_decide (n = 1) then
      x ← np.getitem0 ty;
      match x with
      | ItemScalar (SStr s) =>
          b ← array_in ty possible;
          Ok (if b : bool then s else "")
      | _ => Ok ""
      end
    else Ok ""
  else Ok "".

(** Second check of [__init__]: the type the names of the archive show. *)
Definition manual_type (file : gmap string ndarray) : result string :=
  let k := dom file in
  if issubset ["t"; "start"; "end"; "index"] k then Ok "TsGroup"
  else if issubset ["t"; "d"; "start"; "end"; "columns"] k then Ok "TsdFrame"
  else if issubset ["t"; "d"; "start"; "end"] k then
    d ← getitem file "d";
    if bool_decide (np.ndim d = 1) then Ok "Tsd" else Ok "TsdTensor"
  else if issubset ["t"; "start"; "end"] k then Ok "Ts"
  else if issubset ["start"; "end"] k then Ok "IntervalSet"
  else Ok "npz".

(** [NPZFile.__init__], from the archive that [np.load(path)] returns. *)
Definition init (file : gmap string ndarray) : result NPZFile :=
  ty ← explicit_type file;
  ty ← (if bool_decide (ty = "") then manual_type file else Ok ty);
  Ok (mkNPZFile file ty).

(** The names the group loader does not take for metadata. *)
Definition reserved : list string :=
  ["start"; "end"; "t"; "index"; "d"; "rate"; "keys"].

(** [has_data] and [data] of [load]: the test reads the name ["d"], the
    values are fetched under the name ["data"]. [None] is [has_data = False]. *)
Definition load_data (file : gmap string ndarray) : result (option ndarray) :=
  if bool_decide ("d" ∈ dom file) then
    data ← getitem file "data";
    Ok (Some data)
  else Ok None.

(** [keys] of [load] *)
Definition load_keys (file : gmap string ndarray) (index : ndarray) : result ndarray :=
  if bool_decide ("keys" ∈ dom file) then getitem file "keys"
  else Ok (np.unique index).

(** The member built for the identifier [k]. *)
Definition member (times index : ndarray) (data : option ndarray)
    (time_support : nap.IntervalSet) (k : scalar) : result nap.Base :=
  match data with
  | Some data =>
      t ← np.getitem_mask times (np.eq index k);
      d ← np.getitem_mask data (np.eq index k);
      Ok (nap.Tsd t d time_support)
  | None =>
      t ← np.getitem_mask times (np.eq index k);
      Ok (nap.Ts t time_support)
  end.

(** The loop [for k in keys: group[k] = ...]. An entry of [keys] that is
    itself an array cannot be a dictionary key. *)
Fixpoint fill_group (times index : ndarray) (data : option ndarray)
    (time_support : nap.IntervalSet) (keys : list item)
    (group : list (scalar * nap.Base)) : result (list (scalar * nap.Base)) :=
  match keys with
  | [] => Ok group
  | ItemArray _ :: _ => Raise ArrayError
  | ItemScalar k :: keys' =>
      m ← member times index data time_support k;
      fill_group times index data time_support keys' (dict_set k m group)
  end.

(** The loop [for k in set(self.file.keys()) - {...}], over the entries of
    the archive under the names that are left. *)
Fixpoint fill_metainfo (n : nat) (entries : list (string * ndarray))
    (metainfo : gmap string ndarray) : result (gmap string ndarray) :=
  match entries with
  | [] => Ok metainfo
  | (k, tmp) :: entries' =>
      l ← np.len tmp;
      fill_metainfo n entries'
        (if bool_decide (l = n) then <[k := tmp]> metainfo else metainfo)
  end.

Definition candidates (file : gmap string ndarray) : list (string * ndarray) :=
  filter (λ e, e.1 ∉ reserved) (map_to_list file).

(** [nap.IntervalSet(self.file["start"], self.file["end"])] *)
Definition load_time_support (file : gmap string ndarray) : result nap.IntervalSet :=
  start ← getitem file "start";
  end_ ← getitem file "end";
  Ok (nap.mkIntervalSet start end_).

(** [NPZFile.load] *)
Definition load (self : NPZFile) : result loaded :=
  if bool_decide (type self = "npz") then Ok (LFile (file self))
  else
    time_support ← load_time_support (file self);
    if bool_decide (type self = "TsGroup") then
      times ← getitem (file self) "t";
      index ← getitem (file self) "index";
      data ← load_data (file self);
      keys ← load_keys (file self) index;
      ks ← np.iter keys;
      group ← fill_group times index data time_support ks [];
      let tsgroup := nap.mkTsGroup group time_support true ∅ in
      metainfo ← fill_metainfo (nap.len tsgroup) (candidates (file self)) ∅;
      Ok (LTsGroup (nap.set_info tsgroup metainfo))
    else if bool_decide (type self = "TsdFrame") then
      t ← getitem (file self) "t";
      d ← getitem (file self) "d";
      columns ← getitem (file self) "columns";
      Ok (LTsdFrame t d time_support columns)
    else if bool_decide (type self = "TsdTensor") then
      t ← getitem (file self) "t";
      d ← getitem (file self) "d";
      Ok (LTsdTensor t d time_support)
    else if bool_decide (type self = "Tsd") then
      t ← getitem (file self) "t";
      d ← getitem (file self) "d";
      Ok (LTsd t d time_support)
    else if bool_decide (type self = "Ts") then
      t ← getitem (file self) "t";
      Ok (LTs t time_support)
    else if bool_decide (type self = "IntervalSet") then Ok (LIntervalSet time_support)
    else Ok (LFile (file self)).

(** [NPZFile(path).load()] *)
Definition open_and_load (file : gmap string ndarray) : result loaded :=
  self ← init file;
  load self.

(** ** The classification table of the specification *)

(** The ordered list of key-set patterns, each with the types it stands for;
    the unrecognized kind is the type ["npz"]. *)
Definition patterns : list (list string * list string) :=
  [ (["t"; "start"; "end"; "index"], ["TsGroup"]);
    (["t"; "d"; "start"; "end"; "columns"], ["TsdFrame"]);
    (["t"; "d"; "start"; "end"], ["Tsd"; "TsdTensor"]);
    (["t"; "start"; "end"], ["Ts"]);
    (["start"; "end"], ["IntervalSet"]) ].

(** First match wins. *)
Definition first_match (k : gset string) : list string :=
  match List.find (λ p, issubset p.1 k) patterns with
  | Some p => p.2
  | None => ["npz"]
  end.

(** The elements of [xs] at the positions where [ix] holds [k], in the order
    of [xs]. *)
Definition at_positions (ix : list scalar) (k : scalar) (xs : list scalar)
  : list scalar :=
  (filter (λ p, p.1 = k) (zip ix xs)).*2.

(** ** What load builds from vectors *)

(** The member [load] builds for [k] from vectors: the timestamps (and the
    data values) at the positions where [ix] holds [k]. *)
Definition member_of (ts ix : list scalar) (ds : option (list scalar))
    (time_support : nap.IntervalSet) (k : scalar) : nap.Base :=
  match ds with
  | Some ds =>
      nap.Tsd (np.array (at_positions ix k ts)) (np.array (at_positions ix k ds))
              time_support
  | None => nap.Ts (np.array (at_positions ix k ts)) time_support
  end.

(** The identifiers [load] iterates over: the entry keys when the archive
    has one, the sorted distinct values of index otherwise. *)
Definition identifiers (f : gmap string ndarray) (ix : list scalar) : list scalar :=
  match f !! "keys" with
  | Some a => flat a
  | None => flat (np.unique (np.array ix))
  end.

(** The dictionary the loop of [load] leaves: one assignment per entry of
    [ks], in order. *)
Definition assign_all {V : Type} (m : scalar → V) (ks : list scalar)
    (d : list (scalar * V)) : list (scalar * V) :=
  foldl (λ g k, dict_set k (m k) g) d ks.

(** The elements of [l] without repetition, each where it first occurs: the
    order of the keys of a dictionary filled in the order of [l]. *)
Definition first_occurrences (l : list scalar) : list scalar :=
  foldl (λ acc k, if decide (k ∈ acc) then acc else acc ++ [k]) [] l.

(** ** Example archives *)

(** Two spike trains in one time support, without a declared type. *)
Definition ex_group : gmap string ndarray :=
  <["t" := np.array [real 1 10; real 2 10; real 11 10]]>
  (<["index" := np.array [int 0; int 0; int 1]]>
  (<["start" := np.array [int 0]]>
  (<["end" := np.array [int 2]]> ∅))).

Definition ex_support : nap.IntervalSet :=
  nap.mkIntervalSet (np.array [int 0]) (np.array [int 2]).

(** The same names, declared as a [Tsd]. *)
Definition ex_declared_Tsd : gmap string ndarray :=
  <["type" := np.array [SStr "Tsd"]]> ex_group.

(** The same, with values under the name d only, and under the name data
    only. *)
Definition ex_group_d : gmap string ndarray :=
  <["d" := np.array [int 7; int 8; int 9]]> ex_group.

Definition ex_group_data : gmap string ndarray :=
  <["data" := np.array [int 7; int 8; int 9]]> ex_group.

Definition ex_frame : gmap string ndarray :=
  <["t" := np.array [real 1 10; real 2 10]]>
  (<["d" := NdArray [2; 2] [int 1; int 2; int 3; int 4]]>
  (<["columns" := np.array [SStr "a"; SStr "b"]]>
  (<["start" := np.array [int 0]]>
  (<["end" := np.array [int 2]]> ∅)))).

Definition ex_tsd : gmap string ndarray :=
  <["t" := np.array [real 1 10; real 2 10]]>
  (<["d" := np.array [int 5; int 6]]>
  (<["start" := np.array [int 0]]>
  (<["end" := np.array [int 2]]> ∅))).

Definition ex_tensor : gmap string ndarray :=
  <["d" := NdArray [2; 2] [int 1; int 2; int 3; int 4]]> ex_tsd.

Definition ex_intervals : gmap string ndarray :=
  <["start" := np.array [int 0; int 5]]>
  (<["end" := np.array [int 2; int 8]]> ∅).

Definition ex_other : gmap string ndarray :=
  <["x" := np.array [int 1; int 2]]> (<["start" := np.array [int 0]]> ∅).

(** An archive as a group of two spike trains and an empty one is saved,
    with a label per member and a column as long as t. *)
Definition ex_ts : list scalar := [real 1 10; real 2 10; real 11 10; real 3 2].
Definition ex_ix : list scalar := [int 0; int 0; int 1; int 1].
Definition ex_ds : list scalar := [int 5; int 6; int 7; int 8].

Definition ex_saved : gmap string ndarray :=
  <["type" := np.array [SStr "TsGroup"]]>
  (<["t" := np.array ex_ts]>
  (<["index" := np.array ex_ix]>
  (<["d" := np.array ex_ds]>
  (<["data" := np.array ex_ds]>
  (<["keys" := np.array [int 0; int 1; int 2]]>
  (<["start" := np.array [int 0]]>
  (<["end" := np.array [int 2]]>
  (<["label" := np.array [SStr "a"; SStr "b"; SStr "c"]]>
  (<["trial" := np.array [int 1; int 1; int 2; int 2]]> ∅))))))))).

(** ** Notions used to state further properties *)

(** An array has as many elements as its shape says. *)
Definition wf_ndarray (a : ndarray) : Prop :=
  length (flat a) = np.size (shape a).

(** The type of the object [load] returned; ["npz"] for the archive
    itself. *)
Definition kind_of (r : loaded) : string :=
  match r with
  | LTsGroup _ => "TsGroup"
  | LTsdFrame _ _ _ _ => "TsdFrame"
  | LTsdTensor _ _ _ => "TsdTensor"
  | LTsd _ _ _ => "Tsd"
  | LTs _ _ => "Ts"
  | LIntervalSet _ => "IntervalSet"
  | LFile _ => "npz"
  end.

(** The seven values [self.type] takes. *)
Definition types : list string := possible ++ ["npz"].

(** The timestamps of all the members of a group, member after member. *)
Definition all_timestamps (g : nap.TsGroup) : list scalar :=
  concat ((λ km, flat (nap.index km.2)) <$> nap.data g).

(** A member is a [Tsd]. *)
Definition is_Tsd (m : nap.Base) : bool :=
  match m with nap.Tsd _ _ _ => true | nap.Ts _ _ => false end.

(** Further example archives: timestamps alone; a group declared without
    its interval entries; a group whose index is shorter than t; a group of
    one member saved with its type. *)
Definition ex_ts_only : gmap string ndarray :=
  <["t" := np.array [real 1 10; real 2 10]]>
  (<["columns" := np.array [SStr "a"]]>
  (<["start" := np.array [int 0]]>
  (<["end" := np.array [int 2]]> ∅))).

Definition ex_declared_no_start : gmap string ndarray :=
  <["type" := np.array [SStr "Ts"]]>
  (<["t" := np.array [real 1 10; real 2 10]]> ∅).

Definition ex_declared_no_end : gmap string ndarray :=
  <["start" := np.array [int 0]]> ex_declared_no_start.

Definition ex_short_index : gmap string ndarray :=
  <["index" := np.array [int 0; int 0]]> ex_group.

Definition ex_keys_0d : gmap string ndarray :=
  <["keys" := NdArray [] [int 0]]> ex_group.

Definition ex_scalar_entry : gmap string ndarray :=
  <["name" := NdArray [] [SStr "session"]]> ex_group.

Definition ex_keys_subset : gmap string ndarray :=
  <["keys" := np.array [int 1]]> ex_group.

Definition ex_one_member : gmap string ndarray :=
  <["type" := np.array [SStr "TsGroup"]]>
  (<["t" := np.array [real 1 10; real 2 10]]>
  (<["index" := np.array [int 4; int 4]]>
  (<["start" := np.array [int 0]]>
  (<["end" := np.array [int 2]]> ∅)))).

Definition ex_type_0d : gmap string ndarray :=
  <["type" := NdArray [] [SStr "Tsd"]]> ex_tsd.

Definition ex_empty_index : gmap string ndarray :=
  <["index" := np.array []]> ex_group.

(** A group archive declared as timestamps alone. *)
Definition ex_declared_Ts : gmap string ndarray :=
  <["type" := np.array [SStr "Ts"]]> ex_group.

(** The group [load] makes of [ex_group]. *)
Definition ex_group_loaded : nap.TsGroup :=
  nap.mkTsGroup
    [ (int 0, nap.Ts (np.array [real 1 10; real 2 10]) ex_support);
      (int 1, nap.Ts (np.array [real 11 10]) ex_support) ]
    ex_support true ∅.

(** Facts about a given archive hold by evaluation. *)
Ltac by_evaluation :=
  first [ reflexivity
        | vm_compute; reflexivity
        | apply (bool_decide_unpack _); vm_compute; exact I ].

Ltac saved_archive :=
  first [ by_evaluation
        | intros a Ha; vm_compute in Ha; injection Ha as <-; reflexivity ].

Ltac group_archive :=
  first [ by_evaluation
        | intros a Ha; vm_compute in Ha; discriminate Ha
        | intros a Ha; vm_compute in Ha; injection Ha as <-; reflexivity ].

(** ** Basic facts *)

Lemma bind_Ok {A B} (f : A → result B) (a : A) : (Ok a ≫= f) = f a.
Proof. reflexivity. Qed.

Lemma bind_Raise {A B} (f : A → result B) (e : exn) : (Raise e ≫= f) = Raise e.
Proof. reflexivity. Qed.

Lemma getitem_Some (file : gmap string ndarray) key a :
  file !! key = Some a → getitem file key = Ok a.
Proof. unfold getitem. by intros ->. Qed.

Lemma getitem_None (file : gmap string ndarray) key :
  key ∉ dom file → getitem file key = Raise (KeyError key).
Proof. unfold getitem. intros ?%not_elem_of_dom. by simplify_option_eq. Qed.

Lemma getitem_dom (file : gmap string ndarray) key :
  key ∈ dom file → ∃ a, file !! key = Some a ∧ getitem file key = Ok a.
Proof.
  intros [a Ha]%elem_of_dom. exists a. split; [done|]. by apply getitem_Some.
Qed.

Lemma issubset_spec l (k : gset string) :
  issubset l k = true ↔ ∀ x, x ∈ l → x ∈ k.
Proof.
  unfold issubset. rewrite bool_decide_eq_true. split.
  - intros Hs x Hx. apply Hs. by apply elem_of_list_to_set.
  - intros Hs x Hx. apply Hs. by apply elem_of_list_to_set in Hx.
Qed.

Lemma issubset_cons x l (k : gset string) :
  issubset (x :: l) k = true ↔ x ∈ k ∧ issubset l k = true.
Proof.
  rewrite !issubset_spec. split.
  - intros H. split; [apply H; left|]. intros y Hy. apply H. by right.
  - intros [Hx H] y [->|Hy]%elem_of_cons; auto.
Qed.

Lemma array_in_singleton s l :
  array_in (np.array [SStr s]) l = Ok (bool_decide (s ∈ l)).
Proof.
  induction l as [|x l IH]; simpl.
  - done.
  - destruct (decide (s = x)) as [->|Hne].
    + rewrite bool_decide_eq_true_2 by done. simpl.
      rewrite bool_decide_eq_true_2; [done|]. apply elem_of_cons. by left.
    + rewrite bool_decide_eq_false_2 by congruence. simpl.
      rewrite IH. f_equal. apply bool_decide_ext. rewrite elem_of_cons.
      split; [by right|]. by intros [?|?].
Qed.

Lemma explicit_type_declared (file : gmap string ndarray) s :
  file !! "type" = Some (np.array [SStr s]) → s ∈ possible →
  explicit_type file = Ok s.
Proof.
  intros Hty Hs. unfold explicit_type.
  rewrite bool_decide_eq_true_2 by (apply elem_of_dom; eauto).
  rewrite (getitem_Some _ _ _ Hty), bind_Ok.
  change (np.len (np.array [SStr s])) with (Ok (A:=nat) 1).
  rewrite bind_Ok, bool_decide_eq_true_2 by done.
  change (np.getitem0 (np.array [SStr s])) with (Ok (ItemScalar (SStr s))).
  rewrite bind_Ok, array_in_singleton, bind_Ok.
  by rewrite bool_decide_eq_true_2.
Qed.

Lemma explicit_type_no_key (file : gmap string ndarray) :
  "type" ∉ dom file → explicit_type file = Ok "".
Proof. intros H. unfold explicit_type. by rewrite bool_decide_eq_false_2. Qed.

Lemma init_file (f : gmap string ndarray) self : init f = Ok self → file self = f.
Proof.
  unfold init. destruct (explicit_type f) as [ty|]; simpl; [|done].
  destruct (if bool_decide (ty = "") then _ else _); simpl; [|done].
  by intros [= <-].
Qed.

Lemma init_explicit (f : gmap string ndarray) s :
  explicit_type f = Ok s → s ≠ "" → init f = Ok (mkNPZFile f s).
Proof.
  intros H Hs. unfold init. rewrite H, bind_Ok.
  by rewrite bool_decide_eq_false_2.
Qed.

Lemma init_manual (f : gmap string ndarray) ty :
  explicit_type f = Ok "" → manual_type f = Ok ty → init f = Ok (mkNPZFile f ty).
Proof.
  intros H Hm. unfold init. rewrite H, bind_Ok.
  rewrite bool_decide_eq_true_2 by done. by rewrite Hm.
Qed.

Lemma possible_nonempty s : s ∈ possible → s ≠ "".
Proof.
  unfold possible. rewrite !elem_of_cons, elem_of_nil. intros H ->.
  repeat (destruct H as [H|H]; [discriminate H|]). done.
Qed.

Lemma load_time_support_Some (f : gmap string ndarray) s e :
  f !! "start" = Some s → f !! "end" = Some e →
  load_time_support f = Ok (nap.mkIntervalSet s e).
Proof.
  intros Hs He. unfold load_time_support.
  by rewrite (getitem_Some _ _ _ Hs), bind_Ok, (getitem_Some _ _ _ He).
Qed.

(** ** The loader on the example archives *)

Example load_ex_intervals :
  open_and_load ex_intervals
  = Ok (LIntervalSet (nap.mkIntervalSet (np.array [int 0; int 5])
                                        (np.array [int 2; int 8]))).
Proof. vm_compute. reflexivity. Qed.

Example load_ex_group :
  open_and_load ex_group
  = Ok (LTsGroup (nap.mkTsGroup
         [ (int 0, nap.Ts (np.array [real 1 10; real 2 10]) ex_support);
           (int 1, nap.Ts (np.array [real 11 10]) ex_support) ]
         ex_support true ∅)).
Proof. vm_compute. reflexivity. Qed.

Example load_ex_saved :
  ∃ g, open_and_load ex_saved = Ok (LTsGroup g) ∧
       (nap.data g).*1 = [int 0; int 1; int 2] ∧
       dict_get (int 1) (nap.data g)
       = Some (nap.Tsd (np.array [real 11 10; real 3 2])
                       (np.array [int 7; int 8]) ex_support) ∧
       dict_get (int 2) (nap.data g)
       = Some (nap.Tsd (np.array []) (np.array []) ex_support) ∧
       map_to_list (nap.metadata g)
       = [("label", np.array [SStr "a"; SStr "b"; SStr "c"])].
Proof.
  eexists. split; [vm_compute; reflexivity|].
  repeat split; vm_compute; reflexivity.
Qed.

Example init_ex_tensor : init ex_tensor = Ok (mkNPZFile ex_tensor "TsdTensor").
Proof. vm_compute. reflexivity. Qed.

(** A ["type"] entry that is not one string of the list is passed over. *)
Example init_type_unknown :
  type <$> init (<["type" := np.array [SStr "Folder"]]> ex_tsd) = Ok "Tsd".
Proof. vm_compute. reflexivity. Qed.

Example init_type_number :
  type <$> init (<["type" := np.array [int 3]]> ex_tsd) = Ok "Tsd".
Proof. vm_compute. reflexivity. Qed.

Example init_type_two_strings :
  type <$> init (<["type" := np.array [SStr "Ts"; SStr "Ts"]]> ex_tsd) = Ok "Tsd".
Proof. vm_compute. reflexivity. Qed.

(** A 0-d ["type"] entry has no [len]: [__init__] raises. *)
Example init_type_0d :
  init (<["type" := NdArray [] [SStr "Tsd"]]> ex_tsd) = Raise ArrayError.
Proof. vm_compute. reflexivity. Qed.

(** ** Classification *)

(** C1. An archive whose ["type"] entry is one string of the list of
    possible types is given exactly that type by [__init__], whatever its
    other names are. *)
Theorem explicit_type_takes_precedence (f : gmap string ndarray) (s : string) :
  f !! "type" = Some (np.array [SStr s]) →
  s ∈ possible →
  init f = Ok (mkNPZFile f s).
Proof.
  intros Hty Hs. apply init_explicit.
  - by apply explicit_type_declared.
  - by apply possible_nonempty.
Qed.

Lemma explicit_type_takes_precedence_witness :
  init ex_declared_Tsd = Ok (mkNPZFile ex_declared_Tsd "Tsd").
Proof.
  apply explicit_type_takes_precedence.
  - vm_compute. reflexivity.
  - apply (bool_decide_unpack _). vm_compute. exact I.
Defined.

(** C2. When the first check adopts no type, the type [__init__] assigns is
    the one of the first pattern of the ordered list that the names of the
    archive include, ["npz"] (unrecognized) when none does; the third
    pattern stands for ["Tsd"] and ["TsdTensor"]. In particular an archive
    with the names t, d, start, end and columns, and without index, gets
    ["TsdFrame"]. *)
Theorem manual_type_first_match (f : gmap string ndarray) :
  explicit_type f = Ok "" →
  ∃ ty, init f = Ok (mkNPZFile f ty) ∧
        ty ∈ first_match (dom f) ∧
        (issubset ["t"; "d"; "start"; "end"; "columns"] (dom f) = true →
         "index" ∉ dom f → ty = "TsdFrame").
Proof.
  intros Hex.
  assert (∃ ty, manual_type f = Ok ty ∧ ty ∈ first_match (dom f) ∧
      (issubset ["t"; "d"; "start"; "end"; "columns"] (dom f) = true →
       "index" ∉ dom f → ty = "TsdFrame")) as (ty & Hm & Hin & Hfr).
  { unfold manual_type, first_match, patterns. simpl List.find.
    destruct (issubset ["t"; "start"; "end"; "index"] (dom f)) eqn:HG.
    { eexists; split; [done|]. split; [set_solver|].
      intros _ Hidx. apply issubset_spec with (x := "index") in HG; [done|set_solver]. }
    destruct (issubset ["t"; "d"; "start"; "end"; "columns"] (dom f)) eqn:HF.
    { eexists; split; [done|]. split; [set_solver|done]. }
    destruct (issubset ["t"; "d"; "start"; "end"] (dom f)) eqn:HD.
    { destruct (getitem_dom f "d") as (d & _ & ->).
      { apply issubset_spec with (x := "d") in HD; [done|set_solver]. }
      rewrite bind_Ok. case_bool_decide; eexists; (split; [done|]);
        (split; [set_solver|done]). }
    destruct (issubset ["t"; "start"; "end"] (dom f)) eqn:HT.
    { eexists; split; [done|]. split; [set_solver|done]. }
    destruct (issubset ["start"; "end"] (dom f)) eqn:HI.
    { eexists; split; [done|]. split; [set_solver|done]. }
    eexists; split; [done|]. split; [set_solver|done]. }
  exists ty. split; [by apply init_manual|done].
Qed.

Lemma manual_type_first_match_witness :
  ∃ ty, init ex_frame = Ok (mkNPZFile ex_frame ty) ∧
        ty ∈ first_match (dom ex_frame) ∧
        (issubset ["t"; "d"; "start"; "end"; "columns"] (dom ex_frame) = true →
         "index" ∉ dom ex_frame → ty = "TsdFrame").
Proof. apply manual_type_first_match. vm_compute. reflexivity. Defined.

Lemma manual_type_data (f : gmap string ndarray) d :
  issubset ["t"; "d"; "start"; "end"] (dom f) = true →
  "index" ∉ dom f → "columns" ∉ dom f → f !! "d" = Some d →
  manual_type f = Ok (if bool_decide (np.ndim d = 1) then "Tsd" else "TsdTensor").
Proof.
  intros HD Hidx Hcol Hd. unfold manual_type.
  destruct (issubset ["t"; "start"; "end"; "index"] (dom f)) eqn:HG.
  { apply issubset_spec with (x := "index") in HG; [done|set_solver]. }
  destruct (issubset ["t"; "d"; "start"; "end"; "columns"] (dom f)) eqn:HF.
  { apply issubset_spec with (x := "columns") in HF; [done|set_solver]. }
  rewrite HD, (getitem_Some _ _ _ Hd), bind_Ok. by case_bool_decide.
Qed.

(** C6. For an archive without a declared type, with the names t, d, start
    and end and with neither index nor columns: a one-dimensional [d] gives
    the type ["Tsd"] and [load] returns a [Tsd]; a [d] of two or more
    dimensions gives ["TsdTensor"] and [load] returns a [TsdTensor]. *)
Theorem manual_type_Tsd_or_TsdTensor (f : gmap string ndarray) (d : ndarray) :
  explicit_type f = Ok "" →
  issubset ["t"; "d"; "start"; "end"] (dom f) = true →
  "index" ∉ dom f → "columns" ∉ dom f →
  f !! "d" = Some d →
  ∃ t ts, f !! "t" = Some t ∧ load_time_support f = Ok ts ∧
    (np.ndim d = 1 →
       init f = Ok (mkNPZFile f "Tsd") ∧
       load (mkNPZFile f "Tsd") = Ok (LTsd t d ts)) ∧
    ((2 ≤ np.ndim d)%nat →
       init f = Ok (mkNPZFile f "TsdTensor") ∧
       load (mkNPZFile f "TsdTensor") = Ok (LTsdTensor t d ts)).
Proof.
  intros Hex HD Hidx Hcol Hd.
  pose proof (manual_type_data f d HD Hidx Hcol Hd) as Hm.
  rewrite issubset_spec in HD.
  destruct (getitem_dom f "t") as (t & Ht & Hgt); [apply HD; set_solver|].
  destruct (getitem_dom f "start") as (s & Hs & _); [apply HD; set_solver|].
  destruct (getitem_dom f "end") as (e & He & _); [apply HD; set_solver|].
  pose proof (load_time_support_Some f s e Hs He) as Hts.
  exists t, (nap.mkIntervalSet s e). split; [done|]. split; [done|].
  split; intros Hn.
  - rewrite bool_decide_eq_true_2 in Hm by done. split; [by apply init_manual|].
    unfold load; simpl. rewrite Hts, bind_Ok, Hgt, bind_Ok.
    by rewrite (getitem_Some _ _ _ Hd).
  - rewrite bool_decide_eq_false_2 in Hm by lia. split; [by apply init_manual|].
    unfold load; simpl. rewrite Hts, bind_Ok, Hgt, bind_Ok.
    by rewrite (getitem_Some _ _ _ Hd).
Qed.

Lemma manual_type_Tsd_or_TsdTensor_witness :
  ∃ t ts, ex_tsd !! "t" = Some t ∧ load_time_support ex_tsd = Ok ts ∧
    (np.ndim (np.array [int 5; int 6]) = 1 →
       init ex_tsd = Ok (mkNPZFile ex_tsd "Tsd") ∧
       load (mkNPZFile ex_tsd "Tsd") = Ok (LTsd t (np.array [int 5; int 6]) ts)) ∧
    ((2 ≤ np.ndim (np.array [int 5; int 6]))%nat →
       init ex_tsd = Ok (mkNPZFile ex_tsd "TsdTensor") ∧
       load (mkNPZFile ex_tsd "TsdTensor") =
         Ok (LTsdTensor t (np.array [int 5; int 6]) ts)).
Proof.
  apply manual_type_Tsd_or_TsdTensor.
  - vm_compute. reflexivity.
  - vm_compute. reflexivity.
  - apply (bool_decide_unpack _). vm_compute. exact I.
  - apply (bool_decide_unpack _). vm_compute. exact I.
  - vm_compute. reflexivity.
Defined.

(** C8. An archive without a declared type whose names include none of the
    patterns gets the type ["npz"] (unrecognized); [load] then returns the
    archive as it is, and no time support is built: the archive lacks the
    entries one would be made of. *)
Theorem unrecognized_archive_is_returned (f : gmap string ndarray) :
  explicit_type f = Ok "" →
  List.find (λ p, issubset p.1 (dom f)) patterns = None →
  init f = Ok (mkNPZFile f "npz") ∧
  load (mkNPZFile f "npz") = Ok (LFile f) ∧
  ∃ key, load_time_support f = Raise (KeyError key).
Proof.
  intros Hex Hnone. unfold patterns in Hnone. simpl in Hnone.
  destruct (issubset ["t"; "start"; "end"; "index"] (dom f)) eqn:HG; [done|].
  destruct (issubset ["t"; "d"; "start"; "end"; "columns"] (dom f)) eqn:HF; [done|].
  destruct (issubset ["t"; "d"; "start"; "end"] (dom f)) eqn:HD; [done|].
  destruct (issubset ["t"; "start"; "end"] (dom f)) eqn:HT; [done|].
  destruct (issubset ["start"; "end"] (dom f)) eqn:HI; [done|].
  split; [|split].
  - apply init_manual; [done|]. unfold manual_type. by rewrite HG, HF, HD, HT, HI.
  - done.
  - unfold load_time_support, getitem.
    destruct (f !! "start") as [s|] eqn:Hs; [|by eexists].
    destruct (f !! "end") as [e|] eqn:He; [|by eexists].
    exfalso. apply not_true_iff_false in HI. apply HI, issubset_spec.
    intros x. rewrite !elem_of_cons, elem_of_nil.
    intros [->|[->|[]]]; apply elem_of_dom; eauto.
Qed.

Lemma unrecognized_archive_is_returned_witness :
  init ex_other = Ok (mkNPZFile ex_other "npz") ∧
  load (mkNPZFile ex_other "npz") = Ok (LFile ex_other) ∧
  ∃ key, load_time_support ex_other = Raise (KeyError key).
Proof.
  apply unrecognized_archive_is_returned.
  - vm_compute. reflexivity.
  - vm_compute. reflexivity.
Defined.

(** ** Failures of load *)

(** C9. An archive that declares the type ["Tsd"], has the names of the
    group pattern (t, start, end, index) and has no entry d: [__init__]
    succeeds with the type ["Tsd"], although the names alone would give
    ["TsGroup"]; [load] then raises the missing-key error for d. *)
Theorem declared_Tsd_without_d (f : gmap string ndarray) :
  f !! "type" = Some (np.array [SStr "Tsd"]) →
  issubset ["t"; "start"; "end"; "index"] (dom f) = true →
  "d" ∉ dom f →
  init f = Ok (mkNPZFile f "Tsd") ∧
  manual_type f = Ok "TsGroup" ∧
  load (mkNPZFile f "Tsd") = Raise (KeyError "d").
Proof.
  intros Hty HG Hd. split; [|split].
  - apply init_explicit; [|done]. apply explicit_type_declared; [done|].
    set_solver.
  - unfold manual_type. by rewrite HG.
  - rewrite issubset_spec in HG.
    destruct (getitem_dom f "t") as (t & Ht & Hgt); [apply HG; set_solver|].
    destruct (getitem_dom f "start") as (s & Hs & _); [apply HG; set_solver|].
    destruct (getitem_dom f "end") as (e & He & _); [apply HG; set_solver|].
    unfold load; simpl.
    rewrite (load_time_support_Some f s e Hs He), bind_Ok, Hgt, bind_Ok.
    by rewrite (getitem_None _ _ Hd).
Qed.

Lemma declared_Tsd_without_d_witness :
  init ex_declared_Tsd = Ok (mkNPZFile ex_declared_Tsd "Tsd") ∧
  manual_type ex_declared_Tsd = Ok "TsGroup" ∧
  load (mkNPZFile ex_declared_Tsd "Tsd") = Raise (KeyError "d").
Proof.
  apply declared_Tsd_without_d.
  - vm_compute. reflexivity.
  - vm_compute. reflexivity.
  - apply (bool_decide_unpack _). vm_compute. exact I.
Defined.

(** C10. For an archive of type ["TsGroup"] that has an entry d and no
    entry data, [load] raises a missing-key error instead of returning a
    group; when the entries start, end, t and index are there, it is the
    error for data, raised where the values are fetched. *)
Theorem group_with_d_without_data (f : gmap string ndarray) (self : NPZFile) :
  init f = Ok self →
  type self = "TsGroup" →
  "d" ∈ dom f → "data" ∉ dom f →
  (∃ key, load self = Raise (KeyError key)) ∧
  (issubset ["t"; "start"; "end"; "index"] (dom f) = true →
   load self = Raise (KeyError "data")).
Proof.
  intros Hinit Hty Hd Hdata.
  pose proof (init_file _ _ Hinit) as Hf. destruct self as [f' ty]; simpl in *.
  subst f' ty.
  assert (load_data f = Raise (KeyError "data")) as Hld.
  { unfold load_data. rewrite bool_decide_eq_true_2 by done.
    by rewrite (getitem_None _ _ Hdata). }
  unfold load, load_time_support, getitem; simpl. split.
  - destruct (f !! "start") as [s|]; simpl; [|by eexists].
    destruct (f !! "end") as [e|]; simpl; [|by eexists].
    destruct (f !! "t") as [t|]; simpl; [|by eexists].
    destruct (f !! "index") as [ix|]; simpl; [|by eexists].
    rewrite Hld. by eexists.
  - intros HG. rewrite issubset_spec in HG.
    destruct (getitem_dom f "start") as (s & -> & _); [apply HG; set_solver|].
    destruct (getitem_dom f "end") as (e & -> & _); [apply HG; set_solver|].
    destruct (getitem_dom f "t") as (t & -> & _); [apply HG; set_solver|].
    destruct (getitem_dom f "index") as (ix & -> & _); [apply HG; set_solver|].
    simpl. by rewrite Hld.
Qed.

Lemma group_with_d_without_data_witness :
  (∃ key, load (mkNPZFile ex_group_d "TsGroup") = Raise (KeyError key)) ∧
  (issubset ["t"; "start"; "end"; "index"] (dom ex_group_d) = true →
   load (mkNPZFile ex_group_d "TsGroup") = Raise (KeyError "data")).
Proof.
  apply (group_with_d_without_data ex_group_d).
  - vm_compute. reflexivity.
  - reflexivity.
  - apply (bool_decide_unpack _). vm_compute. exact I.
  - apply (bool_decide_unpack _). vm_compute. exact I.
Defined.

(** ** Boolean indexing of vectors *)

Lemma select_at_positions k (ix xs : list scalar) :
  length xs = length ix →
  np.select 1 ((λ x, bool_decide (x = k)) <$> ix) xs = at_positions ix k xs.
Proof.
  unfold at_positions. revert xs.
  induction ix as [|i ix IH]; intros [|x xs] Hlen; simplify_eq/=; [done|].
  rewrite drop_0, IH by done. rewrite filter_cons. simpl.
  by destruct (decide (i = k)); [rewrite bool_decide_eq_true_2
                                |rewrite bool_decide_eq_false_2].
Qed.

Lemma count_at_positions k (ix xs : list scalar) :
  length xs = length ix →
  np.count ((λ x, bool_decide (x = k)) <$> ix) = length (at_positions ix k xs).
Proof.
  unfold at_positions, np.count. revert xs.
  induction ix as [|i ix IH]; intros [|x xs] Hlen; simplify_eq/=; [done|].
  rewrite !filter_cons. simpl. specialize (IH xs Hlen).
  destruct (decide (i = k)).
  - rewrite bool_decide_eq_true_2 by done. rewrite decide_True by done.
    simpl. by rewrite IH.
  - rewrite bool_decide_eq_false_2 by done. by rewrite decide_False by auto.
Qed.

Lemma getitem_mask_array k (ix xs : list scalar) :
  length xs = length ix →
  np.getitem_mask (np.array xs) (np.eq (np.array ix) k)
  = Ok (np.array (at_positions ix k xs)).
Proof.
  intros Hlen. unfold np.getitem_mask, np.array; simpl.
  rewrite Hlen, bool_decide_eq_true_2 by done. simpl.
  by rewrite (count_at_positions k ix xs), select_at_positions.
Qed.

(** ** Dictionaries *)

Section dict.
Context {V : Type}.
Implicit Types (d : list (scalar * V)) (k : scalar) (v : V) (m : scalar → V).

Lemma dict_set_keys k v d :
  (dict_set k v d).*1 = if decide (k ∈ d.*1) then d.*1 else d.*1 ++ [k].
Proof.
  induction d as [|[k' v'] d IH]; csimpl.
  - done.
  - destruct (decide (k' = k)) as [->|Hne]; csimpl.
    + rewrite decide_True; [done|]. apply elem_of_cons. by left.
    + rewrite IH. destruct (decide (k ∈ d.*1)) as [Hin|Hin].
      * rewrite decide_True; [done|]. apply elem_of_cons. by right.
      * rewrite decide_False; [done|]. rewrite elem_of_cons.
        intros [?|?]; [congruence|done].
Qed.

Lemma dict_get_set k v d k' :
  dict_get k' (dict_set k v d) = if decide (k = k') then Some v else dict_get k' d.
Proof.
  induction d as [|[k0 v0] d IH]; csimpl.
  - done.
  - destruct (decide (k0 = k)) as [->|Hne]; csimpl.
    + by destruct (decide (k = k')).
    + destruct (decide (k0 = k')) as [->|Hne'].
      * by rewrite decide_False by congruence.
      * done.
Qed.

Lemma dict_get_None k d : dict_get k d = None ↔ k ∉ d.*1.
Proof.
  induction d as [|[k0 v0] d IH]; csimpl.
  - split; [intros _; apply not_elem_of_nil|done].
  - rewrite not_elem_of_cons. destruct (decide (k0 = k)) as [->|Hne].
    + split; [done|]. by intros [? _].
    + rewrite IH. split; [by split|by intros [_ ?]].
Qed.

Lemma assign_all_keys m ks d :
  (assign_all m ks d).*1
  = foldl (λ acc k, if decide (k ∈ acc) then acc else acc ++ [k]) d.*1 ks.
Proof.
  revert d. induction ks as [|k ks IH]; intros d; csimpl; [done|].
  by rewrite IH, dict_set_keys.
Qed.

Lemma assign_all_elem m ks d x :
  x ∈ (assign_all m ks d).*1 ↔ x ∈ d.*1 ∨ x ∈ ks.
Proof.
  revert d. induction ks as [|k ks IH]; intros d; csimpl.
  - rewrite elem_of_nil. tauto.
  - rewrite IH, dict_set_keys, elem_of_cons.
    destruct (decide (k ∈ d.*1)) as [Hin|Hin].
    + split; [tauto|]. intros [?|[->|?]]; tauto.
    + rewrite elem_of_app, list_elem_of_singleton. tauto.
Qed.

Lemma assign_all_NoDup m ks d : NoDup d.*1 → NoDup (assign_all m ks d).*1.
Proof.
  revert d. induction ks as [|k ks IH]; intros d Hd; csimpl; [done|].
  apply IH. rewrite dict_set_keys. destruct (decide (k ∈ d.*1)); [done|].
  apply NoDup_app. split; [done|]. split; [|apply NoDup_singleton].
  intros x Hx ->%list_elem_of_singleton. done.
Qed.

Lemma assign_all_order m ks d :
  NoDup (d.*1 ++ ks) → (assign_all m ks d).*1 = d.*1 ++ ks.
Proof.
  revert d. induction ks as [|k ks IH]; intros d Hnd; csimpl.
  - by rewrite app_nil_r.
  - assert (k ∉ d.*1) as Hk.
    { apply NoDup_app in Hnd as (_ & Hdis & _). intros Hin.
      apply (Hdis k Hin). apply elem_of_cons. by left. }
    rewrite IH; rewrite dict_set_keys, decide_False by done.
    + by rewrite <-app_assoc.
    + by rewrite <-app_assoc.
Qed.

Lemma assign_all_get m ks d k :
  dict_get k (assign_all m ks d)
  = if decide (k ∈ ks) then Some (m k) else dict_get k d.
Proof.
  revert d. induction ks as [|k0 ks IH]; intros d; csimpl.
  - done.
  - rewrite IH, dict_get_set. destruct (decide (k ∈ ks)) as [Hin|Hin].
    + rewrite decide_True; [done|]. apply elem_of_cons. by right.
    + destruct (decide (k0 = k)) as [->|Hne].
      * rewrite decide_True; [done|]. apply elem_of_cons. by left.
      * rewrite decide_False; [done|]. rewrite elem_of_cons.
        intros [?|?]; [congruence|done].
Qed.

Lemma assign_all_length m ks :
  length (assign_all m ks []) = length (remove_dups ks).
Proof.
  rewrite <-(length_fmap fst). apply Permutation_length, NoDup_Permutation.
  - apply assign_all_NoDup. constructor.
  - apply NoDup_remove_dups.
  - intros x. rewrite assign_all_elem, elem_of_remove_dups. csimpl.
    rewrite elem_of_nil. tauto.
Qed.
End dict.

(** ** np.unique *)

#[global] Instance scalar_le_total : Total scalar_le.
Proof.
  intros [p|a] [q|b]; simpl; auto.
  - destruct (Qclt_le_dec p q); [left; by apply Qclt_le_weak|by right].
  - apply String.leb_total.
Qed.

Lemma unique_spec (a : ndarray) :
  ∃ u, np.unique a = np.array u ∧ Sorted scalar_le u ∧ NoDup u ∧
       ∀ x, x ∈ u ↔ x ∈ flat a.
Proof.
  exists (merge_sort scalar_le (remove_dups (flat a))). split; [done|].
  split; [apply (Sorted_merge_sort scalar_le)|]. split.
  - rewrite merge_sort_Permutation. apply NoDup_remove_dups.
  - intros x. by rewrite merge_sort_Permutation, elem_of_remove_dups.
Qed.

(** ** The loops of load *)

Lemma member_vectors (ts ix : list scalar) (ds : option (list scalar)) tsup k :
  length ts = length ix →
  (∀ ds', ds = Some ds' → length ds' = length ix) →
  member (np.array ts) (np.array ix) (np.array <$> ds) tsup k
  = Ok (member_of ts ix ds tsup k).
Proof.
  intros Hts Hds. unfold member, member_of. destruct ds as [ds'|]; simpl.
  - rewrite (getitem_mask_array k ix ts Hts), bind_Ok.
    by rewrite (getitem_mask_array k ix ds' (Hds _ eq_refl)).
  - by rewrite (getitem_mask_array k ix ts Hts).
Qed.

Lemma fill_group_scalars times index data tsup (m : scalar → nap.Base) ks g :
  (∀ k, member times index data tsup k = Ok (m k)) →
  fill_group times index data tsup (ItemScalar <$> ks) g = Ok (assign_all m ks g).
Proof.
  intros Hm. revert g. induction ks as [|k ks IH]; intros g; csimpl; [done|].
  by rewrite Hm, bind_Ok, IH.
Qed.

Lemma len_Ok (a : ndarray) : np.ndim a ≠ 0 → ∃ n, np.len a = Ok n.
Proof.
  unfold np.ndim, np.len. destruct (shape a); [done|]. by eexists.
Qed.

Lemma fill_metainfo_Ok n (es : list (string * ndarray)) m0 :
  (∀ k a, (k, a) ∈ es → np.ndim a ≠ 0) →
  ∃ m, fill_metainfo n es m0 = Ok m.
Proof.
  revert m0. induction es as [|[k a] es IH]; intros m0 Hes; simpl.
  - by eexists.
  - destruct (len_Ok a) as [l ->]; [apply (Hes k); by left|].
    rewrite bind_Ok. apply IH. intros k' a' Hin. apply (Hes k'). by right.
Qed.

Lemma fill_metainfo_lookup n (es : list (string * ndarray)) m0 m :
  fill_metainfo n es m0 = Ok m →
  NoDup es.*1 →
  (∀ k, k ∈ es.*1 → m0 !! k = None) →
  ∀ k a, m !! k = Some a ↔ m0 !! k = Some a ∨ ((k, a) ∈ es ∧ np.len a = Ok n).
Proof.
  revert m0. induction es as [|[k1 a1] es IH]; intros m0 Hfill Hnd Hfresh k a.
  - simpl in Hfill. simplify_eq. rewrite elem_of_nil. tauto.
  - simpl in Hfill. csimpl in Hnd. apply NoDup_cons in Hnd as [Hk1 Hnd].
    destruct (np.len a1) as [l|] eqn:Hl; [|done]. rewrite bind_Ok in Hfill.
    assert (m0 !! k1 = None) as Hm01 by (apply Hfresh; csimpl; left).
    rewrite (IH _ Hfill Hnd); clear IH Hfill.
    + rewrite elem_of_cons. case_bool_decide as Hln; subst.
      * destruct (decide (k = k1)) as [->|Hne].
        -- rewrite lookup_insert_eq, Hm01. split.
           ++ intros [[= <-]|[Hin _]]; [right; split; [by left|done]|].
              exfalso. apply Hk1. by apply (list_elem_of_fmap_2 fst) in Hin.
           ++ intros [?|[[[= <-]|Hin] _]]; [done|by left|].
              exfalso. apply Hk1. by apply (list_elem_of_fmap_2 fst) in Hin.
        -- rewrite lookup_insert_ne by done. split; [tauto|].
           intros [?|[[[= -> _]|?] ?]]; tauto.
      * split; [tauto|]. intros [?|[[[= -> ->]|?] Hk]]; [tauto| |tauto].
        rewrite Hl in Hk. by simplify_eq.
    + intros k' Hk'. case_bool_decide; [|apply Hfresh; csimpl; by right].
      rewrite lookup_insert_ne; [apply Hfresh; csimpl; by right|].
      by intros ->.
Qed.

Lemma candidates_elem (f : gmap string ndarray) k a :
  (k, a) ∈ candidates f ↔ f !! k = Some a ∧ k ∉ reserved.
Proof.
  unfold candidates. rewrite list_elem_of_filter, elem_of_map_to_list. tauto.
Qed.

Lemma candidates_NoDup (f : gmap string ndarray) : NoDup (candidates f).*1.
Proof.
  apply sublist_NoDup with ((map_to_list f).*1).
  - apply NoDup_fst_map_to_list.
  - apply fmap_sublist, sublist_filter.
Qed.

(** ** Selection by identifier *)

Lemma at_positions_elem (ix : list scalar) k (xs : list scalar) x :
  x ∈ at_positions ix k xs ↔ ∃ i, ix !! i = Some k ∧ xs !! i = Some x.
Proof.
  unfold at_positions. rewrite list_elem_of_fmap. split.
  - intros ([k' x'] & -> & [Hk Hin]%list_elem_of_filter). simpl in *. subst k'.
    apply list_elem_of_lookup in Hin as [i Hi].
    apply lookup_zip_with_Some in Hi as (a & b & [= <- <-] & ? & ?). eauto.
  - intros (i & Hi & Hx). exists (k, x). split; [done|].
    apply list_elem_of_filter. split; [done|].
    apply list_elem_of_lookup. exists i. apply lookup_zip_with_Some. eauto.
Qed.

Lemma at_positions_sublist (ix : list scalar) k (xs : list scalar) :
  length xs = length ix → at_positions ix k xs `sublist_of` xs.
Proof.
  intros Hlen. unfold at_positions.
  rewrite <-(snd_zip ix xs) at 2 by lia. apply fmap_sublist, sublist_filter.
Qed.

Lemma at_positions_absent (ix : list scalar) k (xs : list scalar) :
  k ∉ ix → at_positions ix k xs = [].
Proof.
  intros Hk. destruct (at_positions ix k xs) as [|x l] eqn:Heq; [done|].
  assert (x ∈ at_positions ix k xs) as Hx by (rewrite Heq; left).
  apply at_positions_elem in Hx as (i & Hi & _).
  exfalso. apply Hk. apply list_elem_of_lookup. eauto.
Qed.

Lemma member_of_index ts ix ds tsup k :
  nap.index (member_of ts ix ds tsup k) = np.array (at_positions ix k ts).
Proof. by destruct ds. Qed.

Lemma member_of_time_support ts ix ds tsup k :
  nap.time_support (member_of ts ix ds tsup k) = tsup.
Proof. by destruct ds. Qed.

(** ** Reconstruction of a group *)

Section group.
Variables (f : gmap string ndarray) (self : NPZFile).
Variables (ts ix : list scalar) (ds : option (list scalar)) (s e : ndarray).

(** The archive is classified as a group. *)
Hypothesis Hinit : init f = Ok self.
Hypothesis Htype : type self = "TsGroup".
(** It has the entries of a group: start and end, and the parallel
    vectors t and index. *)
Hypothesis Hstart : f !! "start" = Some s.
Hypothesis Hend : f !! "end" = Some e.
Hypothesis Ht : f !! "t" = Some (np.array ts).
Hypothesis Hindex : f !! "index" = Some (np.array ix).
Hypothesis Hparallel : length ts = length ix.
(** Either it has an entry d, and its entry data is a vector parallel to
    index, or it has no entry d. *)
Hypothesis Hdata :
  match ds with
  | Some ds' =>
      "d" ∈ dom f ∧ f !! "data" = Some (np.array ds') ∧ length ds' = length ix
  | None => "d" ∉ dom f
  end.
(** Its entry keys, if any, is a vector. *)
Hypothesis Hkeys : ∀ a, f !! "keys" = Some a → np.ndim a = 1.
(** Its other entries have a length. *)
Hypothesis Hmeta : map_Forall (λ k a, k ∉ reserved → np.ndim a ≠ 0) f.

Lemma load_data_vectors : load_data f = Ok (np.array <$> ds).
Proof.
  unfold load_data. destruct ds as [ds'|].
  - destruct Hdata as (Hd & Hda & _). rewrite bool_decide_eq_true_2 by done.
    by rewrite (getitem_Some _ _ _ Hda).
  - by rewrite bool_decide_eq_false_2.
Qed.

Lemma load_keys_iter :
  ∃ a, load_keys f (np.array ix) = Ok a ∧ np.iter a = Ok (ItemScalar <$> identifiers f ix).
Proof.
  unfold load_keys, identifiers. destruct (f !! "keys") as [a|] eqn:Hk.
  - exists a. rewrite bool_decide_eq_true_2 by (apply elem_of_dom; eauto).
    split; [by apply getitem_Some|].
    specialize (Hkeys a eq_refl). unfold np.ndim, np.iter in *.
    by destruct (shape a) as [|? [|]].
  - eexists. rewrite bool_decide_eq_false_2 by by apply not_elem_of_dom.
    done.
Qed.

Let tsup := nap.mkIntervalSet s e.
Let ids := identifiers f ix.
Let members := assign_all (member_of ts ix ds tsup) ids [].

Lemma load_group :
  ∃ metainfo,
    fill_metainfo (length members) (candidates f) ∅ = Ok metainfo ∧
    load self = Ok (LTsGroup (nap.mkTsGroup members tsup true metainfo)).
Proof.
  pose proof (init_file _ _ Hinit) as Hf.
  destruct self as [f' ty]; simpl in *; subst f' ty.
  destruct (fill_metainfo_Ok (length members) (candidates f) ∅) as [mi Hmi].
  { intros k a [Hka Hk]%candidates_elem. by apply (Hmeta k a). }
  exists mi. split; [done|].
  destruct load_keys_iter as (a & Hlk & Hit).
  unfold load; simpl.
  rewrite (load_time_support_Some f s e Hstart Hend), bind_Ok.
  rewrite (getitem_Some _ _ _ Ht), bind_Ok.
  rewrite (getitem_Some _ _ _ Hindex), bind_Ok.
  rewrite load_data_vectors, bind_Ok, Hlk, bind_Ok, Hit, bind_Ok.
  rewrite (fill_group_scalars _ _ _ _ (member_of ts ix ds tsup)), bind_Ok.
  - fold tsup. fold ids. fold members.
    unfold nap.len; simpl. by rewrite Hmi.
  - intros k. apply member_vectors; [done|].
    intros ds' ->. by destruct Hdata as (_ & _ & ?).
Qed.

(** C3. For an archive classified as a group, [load] returns a group with
    as many members as there are distinct identifiers, one for each
    identifier [k] and no other; the timestamps of the member for [k] are
    those of t at the positions where index holds [k], in the order of t;
    every member and the group carry the time support made of start and
    end. The archive has to be one [load] can read: see the hypotheses on
    its entries, in particular on d and data. *)
Theorem group_members :
  ∃ g, load self = Ok (LTsGroup g) ∧
    nap.len g = length (remove_dups (identifiers f ix)) ∧
    (∀ k, k ∈ (nap.data g).*1 ↔ k ∈ identifiers f ix) ∧
    nap.group_time_support g = nap.mkIntervalSet s e ∧
    ∀ k, k ∈ identifiers f ix →
      ∃ m, dict_get k (nap.data g) = Some m ∧
           nap.index m = np.array (at_positions ix k ts) ∧
           at_positions ix k ts `sublist_of` ts ∧
           nap.time_support m = nap.mkIntervalSet s e.
Proof.
  destruct load_group as (mi & _ & Hload).
  eexists. split; [exact Hload|]. simpl. unfold nap.len; simpl.
  split; [apply assign_all_length|].
  split.
  { intros k. unfold members. rewrite assign_all_elem. simpl.
    rewrite elem_of_nil. tauto. }
  split; [done|].
  intros k Hk. exists (member_of ts ix ds tsup k).
  split; [|split; [|split]].
  - unfold members. rewrite assign_all_get. by rewrite decide_True.
  - apply member_of_index.
  - by apply at_positions_sublist.
  - apply member_of_time_support.
Qed.

(** C5. For an archive classified as a group, an entry whose name is not
    reserved is attached to the group as metadata exactly when its length
    is the number of members, and nothing else is attached; an entry as
    long as t is not attached when t does not have as many timestamps as
    the group has members. *)
Theorem group_metadata :
  ∃ g, load self = Ok (LTsGroup g) ∧
    nap.len g = length (remove_dups (identifiers f ix)) ∧
    (∀ k a, f !! k = Some a → k ∉ reserved →
       (nap.metadata g !! k = Some a ↔ np.len a = Ok (nap.len g))) ∧
    (∀ k a, nap.metadata g !! k = Some a → f !! k = Some a ∧ k ∉ reserved) ∧
    (∀ k a, f !! k = Some a → k ∉ reserved →
       np.len a = Ok (length ts) → length ts ≠ nap.len g →
       nap.metadata g !! k = None).
Proof.
  destruct load_group as (mi & Hmi & Hload).
  pose proof (fill_metainfo_lookup _ _ _ _ Hmi (candidates_NoDup f)
                (λ k _, lookup_empty k)) as Hlook.
  assert (∀ k a, mi !! k = Some a ↔
            (f !! k = Some a ∧ k ∉ reserved) ∧ np.len a = Ok (length members))
    as Hmi'.
  { intros k a. rewrite Hlook, lookup_empty, candidates_elem.
    split; [by intros [?|?]|by right]. }
  eexists. split; [exact Hload|]. unfold nap.len; simpl.
  split; [apply assign_all_length|].
  split; [|split].
  - intros k a Hka Hk. rewrite Hmi'. tauto.
  - intros k a Hka. apply Hmi' in Hka. tauto.
  - intros k a Hka Hk Hlen Hne.
    destruct (mi !! k) as [a'|] eqn:Hmk; [|done].
    apply Hmi' in Hmk as [[Hka' _] Hlen'].
    rewrite Hka in Hka'. injection Hka' as <-.
    rewrite Hlen in Hlen'. injection Hlen' as Hl. by apply Hne in Hl.
Qed.

(** C7. For an archive classified as a group, the identifiers of the
    members of the group [load] returns are those of the entry keys when
    the archive has one, in its order, whether or not index holds them (a
    member without timestamps is built for one that index does not hold);
    otherwise they are the distinct values of index, sorted. *)
Theorem group_identifiers :
  ∃ g, load self = Ok (LTsGroup g) ∧
    (∀ a, f !! "keys" = Some a →
       (nap.data g).*1 = first_occurrences (flat a) ∧
       (∀ k, k ∈ (nap.data g).*1 ↔ k ∈ flat a) ∧
       (NoDup (flat a) → (nap.data g).*1 = flat a) ∧
       (∀ k, k ∈ flat a → k ∉ ix →
          ∃ m, dict_get k (nap.data g) = Some m ∧ nap.index m = np.array [])) ∧
    ("keys" ∉ dom f →
       Sorted scalar_le (nap.data g).*1 ∧ NoDup (nap.data g).*1 ∧
       ∀ k, k ∈ (nap.data g).*1 ↔ k ∈ ix).
Proof.
  destruct load_group as (mi & _ & Hload).
  eexists. split; [exact Hload|]. simpl. split.
  - intros a Ha. assert (ids = flat a) as Hids.
    { unfold ids, identifiers. by rewrite Ha. }
    unfold members. rewrite Hids. split; [|split; [|split]].
    + apply assign_all_keys.
    + intros k. rewrite assign_all_elem. simpl. rewrite elem_of_nil. tauto.
    + intros Hnd. by rewrite assign_all_order.
    + intros k Hk Hix. exists (member_of ts ix ds tsup k). split.
      * rewrite assign_all_get. by rewrite decide_True.
      * by rewrite member_of_index, at_positions_absent.
  - intros Hk. apply not_elem_of_dom in Hk.
    destruct (unique_spec (np.array ix)) as (u & Hu & Hsorted & Hnd & Helem).
    assert (ids = u) as Hids.
    { unfold ids, identifiers. by rewrite Hk, Hu. }
    unfold members. rewrite Hids, assign_all_order by done. simpl.
    split; [done|]. split; [done|]. intros k. by rewrite Helem.
Qed.

(** The member of every identifier is the one [member_of] describes: a
    [Tsd] with the values of data at the positions of the identifier when
    the archive has both d and data, a [Ts] when it has no d. *)
Lemma group_member_values :
  ∃ g, load self = Ok (LTsGroup g) ∧
    ∀ k, k ∈ identifiers f ix →
      dict_get k (nap.data g)
      = Some (member_of ts ix ds (nap.mkIntervalSet s e) k).
Proof.
  destruct load_group as (mi & _ & Hload).
  eexists. split; [exact Hload|]. simpl. intros k Hk.
  unfold members. rewrite assign_all_get. by rewrite decide_True.
Qed.

End group.

Lemma group_members_witness :
  ∃ g, load (mkNPZFile ex_saved "TsGroup") = Ok (LTsGroup g) ∧
    nap.len g = length (remove_dups (identifiers ex_saved ex_ix)) ∧
    (∀ k, k ∈ (nap.data g).*1 ↔ k ∈ identifiers ex_saved ex_ix) ∧
    nap.group_time_support g = nap.mkIntervalSet (np.array [int 0]) (np.array [int 2]) ∧
    ∀ k, k ∈ identifiers ex_saved ex_ix →
      ∃ m, dict_get k (nap.data g) = Some m ∧
           nap.index m = np.array (at_positions ex_ix k ex_ts) ∧
           at_positions ex_ix k ex_ts `sublist_of` ex_ts ∧
           nap.time_support m = nap.mkIntervalSet (np.array [int 0]) (np.array [int 2]).
Proof.
  apply (group_members ex_saved (mkNPZFile ex_saved "TsGroup") ex_ts ex_ix
           (Some ex_ds)); saved_archive.
Defined.

Lemma group_metadata_witness :
  ∃ g, load (mkNPZFile ex_saved "TsGroup") = Ok (LTsGroup g) ∧
    nap.len g = length (remove_dups (identifiers ex_saved ex_ix)) ∧
    (∀ k a, ex_saved !! k = Some a → k ∉ reserved →
       (nap.metadata g !! k = Some a ↔ np.len a = Ok (nap.len g))) ∧
    (∀ k a, nap.metadata g !! k = Some a → ex_saved !! k = Some a ∧ k ∉ reserved) ∧
    (∀ k a, ex_saved !! k = Some a → k ∉ reserved →
       np.len a = Ok (length ex_ts) → length ex_ts ≠ nap.len g →
       nap.metadata g !! k = None).
Proof.
  apply (group_metadata ex_saved (mkNPZFile ex_saved "TsGroup") ex_ts ex_ix
           (Some ex_ds) (np.array [int 0]) (np.array [int 2])); saved_archive.
Defined.

Lemma group_identifiers_witness :
  ∃ g, load (mkNPZFile ex_saved "TsGroup") = Ok (LTsGroup g) ∧
    (∀ a, ex_saved !! "keys" = Some a →
       (nap.data g).*1 = first_occurrences (flat a) ∧
       (∀ k, k ∈ (nap.data g).*1 ↔ k ∈ flat a) ∧
       (NoDup (flat a) → (nap.data g).*1 = flat a) ∧
       (∀ k, k ∈ flat a → k ∉ ex_ix →
          ∃ m, dict_get k (nap.data g) = Some m ∧ nap.index m = np.array [])) ∧
    ("keys" ∉ dom ex_saved →
       Sorted scalar_le (nap.data g).*1 ∧ NoDup (nap.data g).*1 ∧
       ∀ k, k ∈ (nap.data g).*1 ↔ k ∈ ex_ix).
Proof.
  apply (group_identifiers ex_saved (mkNPZFile ex_saved "TsGroup") ex_ts ex_ix
           (Some ex_ds) (np.array [int 0]) (np.array [int 2])); saved_archive.
Defined.

(** ** The data of a group *)

(** C4 does not hold of [load]: the test for data reads the name d and the
    values are fetched under the name data. A group archive with an entry
    data and no entry d is loaded as timestamps only, its data left aside;
    one with an entry d and no entry data is not loaded at all. *)
Theorem group_data_names_disagree :
  open_and_load ex_group_data
  = Ok (LTsGroup (nap.mkTsGroup
         [ (int 0, nap.Ts (np.array [real 1 10; real 2 10]) ex_support);
           (int 1, nap.Ts (np.array [real 11 10]) ex_support) ]
         ex_support true ∅)) ∧
  open_and_load ex_group_d = Raise (KeyError "data").
Proof. split; vm_compute; reflexivity. Qed.

(** ** Further properties of the classification *)

Lemma array_in_true (a : ndarray) l :
  array_in a l = Ok true → ∃ x, x ∈ l ∧ flat a = [SStr x].
Proof.
  induction l as [|x l IH]; simpl; [done|].
  unfold np.truth. destruct (flat a) as [|y [|z fl]] eqn:Hfl; simpl; [| |done].
  - intros H. destruct (IH H) as (x' & _ & ?). done.
  - case_bool_decide as Hy; simpl.
    + intros _. exists x. split; [apply elem_of_cons; by left|by subst].
    + intros H. destruct (IH H) as (x' & Hx' & Heq).
      exists x'. split; [apply elem_of_cons; by right|done].
Qed.

Lemma getitem0_scalar (a : ndarray) x :
  np.getitem0 a = Ok (ItemScalar x) → ∃ fl, flat a = x :: fl.
Proof.
  unfold np.getitem0. destruct (shape a) as [|[|n] [|r rest]]; try done.
  destruct (flat a) as [|y fl]; [done|]. intros [= ->]. by eexists.
Qed.

Lemma explicit_type_range (f : gmap string ndarray) s :
  explicit_type f = Ok s → s = "" ∨ s ∈ possible.
Proof.
  unfold explicit_type. case_bool_decide; [|intros [= <-]; by left].
  destruct (getitem f "type") as [a|]; [|done]. rewrite bind_Ok.
  destruct (np.len a) as [n|]; [|done]. rewrite bind_Ok.
  case_bool_decide; [|intros [= <-]; by left].
  destruct (np.getitem0 a) as [x|] eqn:Hget; [rewrite bind_Ok|done].
  destruct x as [[q|s']|b]; try (intros [= <-]; by left).
  destruct (array_in a possible) as [[|]|] eqn:Hin;
    rewrite ?bind_Ok, ?bind_Raise; try done; try (intros [= <-]; by left).
  intros [= <-]. right.
  apply array_in_true in Hin as (x & Hx & Hfl).
  apply getitem0_scalar in Hget as (fl & Hfl').
  rewrite Hfl in Hfl'. by injection Hfl' as -> _.
Qed.

Lemma manual_type_range (f : gmap string ndarray) :
  ∃ ty, manual_type f = Ok ty ∧ ty ∈ types.
Proof.
  unfold manual_type, types, possible.
  destruct (issubset ["t"; "start"; "end"; "index"] (dom f));
    [eexists; split; [done|set_solver]|].
  destruct (issubset ["t"; "d"; "start"; "end"; "columns"] (dom f));
    [eexists; split; [done|set_solver]|].
  destruct (issubset ["t"; "d"; "start"; "end"] (dom f)) eqn:HD.
  { destruct (getitem_dom f "d") as (d & _ & ->).
    { apply issubset_spec with (x := "d") in HD; [done|set_solver]. }
    rewrite bind_Ok. case_bool_decide; eexists; (split; [done|set_solver]). }
  destruct (issubset ["t"; "start"; "end"] (dom f));
    [eexists; split; [done|set_solver]|].
  destruct (issubset ["start"; "end"] (dom f));
    eexists; (split; [done|set_solver]).
Qed.

Lemma init_types (f : gmap string ndarray) (self : NPZFile) :
  init f = Ok self → type self ∈ types.
Proof.
  unfold init.
  destruct (explicit_type f) as [s|] eqn:Hex; [|done]. rewrite bind_Ok.
  case_bool_decide as Hs.
  - destruct (manual_type_range f) as (ty & -> & Hty). by intros [= <-].
  - intros [= <-]. simpl. apply explicit_type_range in Hex as [?|?]; [done|].
    unfold types. apply elem_of_app. by left.
Qed.

(** X1. Whenever [__init__] succeeds, the type it stores is one of the six
    possible types or ["npz"], and the archive is kept as it was given: the
    last branch of [load] is never taken on a file that was opened. *)
Theorem init_type_range (f : gmap string ndarray) (self : NPZFile) :
  init f = Ok self → file self = f ∧ type self ∈ types.
Proof.
  intros Hinit. split; [by apply init_file|by apply (init_types f)].
Qed.

Lemma init_type_range_witness :
  file (mkNPZFile ex_declared_Tsd "Tsd") = ex_declared_Tsd ∧
  type (mkNPZFile ex_declared_Tsd "Tsd") ∈ types.
Proof. apply init_type_range. by_evaluation. Defined.

Lemma explicit_type_wf (f : gmap string ndarray) :
  (∀ a, f !! "type" = Some a → wf_ndarray a) →
  (∀ a, f !! "type" = Some a → np.ndim a ≠ 0) →
  ∃ s, explicit_type f = Ok s.
Proof.
  intros Hwf Hnd. unfold explicit_type. case_bool_decide as Hin; [|by eexists].
  apply elem_of_dom in Hin as [a Ha]. rewrite (getitem_Some _ _ _ Ha), bind_Ok.
  specialize (Hwf a Ha). specialize (Hnd a Ha).
  unfold wf_ndarray, np.ndim in *.
  destruct a as [[|n rest] fl]; simpl in Hwf, Hnd; [done|].
  unfold np.len, np.getitem0; cbn [shape flat]. rewrite bind_Ok.
  case_bool_decide as Hn; [|by eexists]. subst n.
  destruct rest as [|r rest]; simpl in Hwf.
  - destruct fl as [|x [|y fl]]; simpl in Hwf; try lia.
    rewrite bind_Ok. destruct x as [q|s]; [by eexists|].
    change (NdArray [1] [SStr s]) with (np.array [SStr s]).
    rewrite array_in_singleton, bind_Ok. by eexists.
  - rewrite bind_Ok. by eexists.
Qed.

(** X2. [__init__] raises on one kind of archive only: one whose ["type"]
    entry is a 0-d array, of which [len] cannot be taken. *)
Theorem init_raises_iff (f : gmap string ndarray) (e : exn) :
  (∀ a, f !! "type" = Some a → wf_ndarray a) →
  init f = Raise e ↔
  e = ArrayError ∧ ∃ a, f !! "type" = Some a ∧ np.ndim a = 0.
Proof.
  intros Hwf. split.
  - intros Hinit. destruct (f !! "type") as [a|] eqn:Ha.
    + destruct (decide (np.ndim a = 0)) as [Hnd|Hnd].
      * split; [|by exists a]. revert Hinit. unfold init, explicit_type.
        rewrite bool_decide_eq_true_2 by (apply elem_of_dom; eauto).
        rewrite (getitem_Some _ _ _ Ha), bind_Ok. unfold np.ndim, np.len in *.
        destruct (shape a); [|done]. rewrite !bind_Raise. by intros [= <-].
      * exfalso. destruct (explicit_type_wf f) as [s Hs].
        { intros a' Ha'. apply Hwf. congruence. }
        { intros a' Ha'. congruence. }
        revert Hinit. unfold init. rewrite Hs, bind_Ok.
        destruct (manual_type_range f) as (ty & -> & _).
        by case_bool_decide.
    + exfalso. revert Hinit. unfold init.
      rewrite explicit_type_no_key by by apply not_elem_of_dom.
      rewrite bind_Ok. destruct (manual_type_range f) as (ty & -> & _).
      by case_bool_decide.
  - intros (-> & a & Ha & Hnd). unfold init, explicit_type.
    rewrite bool_decide_eq_true_2 by (apply elem_of_dom; eauto).
    rewrite (getitem_Some _ _ _ Ha), bind_Ok. unfold np.ndim, np.len in *.
    by destruct (shape a).
Qed.

Lemma init_raises_iff_witness :
  init ex_type_0d = Raise ArrayError ↔
  ArrayError = ArrayError ∧
  ∃ a, ex_type_0d !! "type" = Some a ∧ np.ndim a = 0.
Proof.
  apply init_raises_iff. intros a Ha. vm_compute in Ha.
  injection Ha as <-. reflexivity.
Defined.

Lemma issubset_names (l : list string) (k1 k2 : gset string) :
  "type" ∉ l → k1 ∖ {["type"]} = k2 ∖ {["type"]} →
  issubset l k1 = issubset l k2.
Proof.
  intros Hl Hk. unfold issubset. apply bool_decide_ext.
  assert (∀ x, x ∈ l → (x ∈ k1 ↔ x ∈ k2)) as Hx.
  { intros x Hin. assert (x ≠ "type") by (by intros ->).
    split; intros ?.
    - assert (x ∈ k2 ∖ {["type"]}) by (rewrite <-Hk; set_solver). set_solver.
    - assert (x ∈ k1 ∖ {["type"]}) by (rewrite Hk; set_solver). set_solver. }
  split; intros Hs x Hin%elem_of_list_to_set.
  - apply Hx; [done|]. apply Hs. by apply elem_of_list_to_set.
  - apply Hx; [done|]. apply Hs. by apply elem_of_list_to_set.
Qed.

Lemma manual_type_names (f g : gmap string ndarray) :
  dom f ∖ {["type"]} = dom g ∖ {["type"]} →
  np.ndim <$> f !! "d" = np.ndim <$> g !! "d" →
  manual_type f = manual_type g.
Proof.
  intros Hdom Hd. unfold manual_type.
  rewrite !(issubset_names _ (dom f) (dom g)) by (done || set_solver).
  unfold getitem.
  destruct (f !! "d") as [d|] eqn:Hfd, (g !! "d") as [d'|] eqn:Hgd;
    simplify_eq/=; [by rewrite Hd|].
  assert ("d" ∉ dom g) as Hnd by by apply not_elem_of_dom.
  destruct (issubset ["t"; "start"; "end"; "index"] (dom g)); [done|].
  destruct (issubset ["t"; "d"; "start"; "end"; "columns"] (dom g)); [done|].
  destruct (issubset ["t"; "d"; "start"; "end"] (dom g)) eqn:HD; [|done].
  apply issubset_spec with (x := "d") in HD; [done|set_solver].
Qed.

(** X3. When the first check adopts nothing, the type depends on the names
    of the archive (other than the name type) and on the number of
    dimensions of d only: two archives that agree on these get the same
    type, whatever their arrays hold. *)
Theorem type_depends_on_names (f g : gmap string ndarray) :
  explicit_type f = Ok "" → explicit_type g = Ok "" →
  dom f ∖ {["type"]} = dom g ∖ {["type"]} →
  np.ndim <$> f !! "d" = np.ndim <$> g !! "d" →
  type <$> init f = type <$> init g.
Proof.
  intros Hf Hg Hdom Hd. unfold init. rewrite Hf, Hg, !bind_Ok.
  rewrite !bool_decide_eq_true_2 by done.
  rewrite (manual_type_names f g Hdom Hd).
  by destruct (manual_type g).
Qed.

Lemma type_depends_on_names_witness :
  type <$> init (<["type" := np.array [SStr "Folder"]]> ex_tsd)
  = type <$> init ex_tsd.
Proof. apply type_depends_on_names; by_evaluation. Defined.

(** Case analysis on the steps of a computation that succeeded. *)
Ltac destruct_binds H :=
  repeat match type of H with
  | (?m ≫= _) = Ok _ =>
      destruct m eqn:?; [rewrite bind_Ok in H|discriminate H]
  end.

Lemma load_kind (self : NPZFile) (r : loaded) :
  type self ∈ types → load self = Ok r → kind_of r = type self.
Proof.
  destruct self as [f ty]; simpl. unfold types, possible; simpl.
  rewrite !elem_of_cons, elem_of_nil. intros Hty Hload.
  repeat (destruct Hty as [->|Hty]); try done;
    unfold load in Hload; simpl in Hload;
    destruct_binds Hload; by simplify_eq.
Qed.

(** X4. Whatever [load] returns on an opened archive is an object of the
    type [__init__] stored: a group for ["TsGroup"], the time support for
    ["IntervalSet"], the archive itself for ["npz"], and so on. *)
Theorem open_and_load_kind (f : gmap string ndarray) (r : loaded) :
  open_and_load f = Ok r →
  ∃ self, init f = Ok self ∧ kind_of r = type self.
Proof.
  unfold open_and_load. destruct (init f) as [self|] eqn:Hinit; [|done].
  rewrite bind_Ok. intros Hload. exists self. split; [done|].
  apply load_kind; [|done]. by apply init_types in Hinit.
Qed.

Lemma open_and_load_kind_witness :
  ∃ self, init ex_intervals = Ok self ∧
    kind_of (LIntervalSet (nap.mkIntervalSet (np.array [int 0; int 5])
                                             (np.array [int 2; int 8])))
    = type self.
Proof. apply open_and_load_kind. by_evaluation. Defined.



(** ** Further properties of load *)

(** X6. Except for the type ["npz"], [load] builds the time support before
    anything else: on an archive without the entry start it raises the
    missing-key error for start, and with start but without end the one for
    end, whatever the type and the other entries are. *)
Theorem load_needs_start_and_end (f : gmap string ndarray) (self : NPZFile) :
  init f = Ok self → type self ≠ "npz" →
  ("start" ∉ dom f → load self = Raise (KeyError "start")) ∧
  ("start" ∈ dom f → "end" ∉ dom f → load self = Raise (KeyError "end")).
Proof.
  intros Hinit Hty. pose proof (init_file _ _ Hinit) as Hf.
  destruct self as [f' ty]; simpl in *; subst f'.
  unfold load, load_time_support; simpl.
  rewrite bool_decide_eq_false_2 by done. split.
  - intros Hs. by rewrite (getitem_None _ _ Hs).
  - intros Hs He. destruct (getitem_dom f "start" Hs) as (s & _ & ->).
    rewrite bind_Ok. by rewrite (getitem_None _ _ He).
Qed.

Lemma load_needs_start_and_end_witness :
  ("start" ∉ dom ex_declared_no_start →
   load (mkNPZFile ex_declared_no_start "Ts") = Raise (KeyError "start")) ∧
  ("start" ∈ dom ex_declared_no_start → "end" ∉ dom ex_declared_no_start →
   load (mkNPZFile ex_declared_no_start "Ts") = Raise (KeyError "end")).
Proof. apply (load_needs_start_and_end ex_declared_no_start); by_evaluation. Defined.

(** X7. An archive without a declared type that has t, start and end and
    neither d nor index is loaded as a [Ts] of its t on the time support of
    its start and end; its other entries (columns, keys, ...) play no
    part. *)
Theorem load_timestamps (f : gmap string ndarray) (t s e : ndarray) :
  explicit_type f = Ok "" →
  f !! "t" = Some t → f !! "start" = Some s → f !! "end" = Some e →
  "d" ∉ dom f → "index" ∉ dom f →
  open_and_load f = Ok (LTs t (nap.mkIntervalSet s e)).
Proof.
  intros Hex Ht Hs He Hd Hidx.
  assert (manual_type f = Ok "Ts") as Hm.
  { unfold manual_type.
    destruct (issubset ["t"; "start"; "end"; "index"] (dom f)) eqn:HG.
    { apply issubset_spec with (x := "index") in HG; [done|set_solver]. }
    destruct (issubset ["t"; "d"; "start"; "end"; "columns"] (dom f)) eqn:HF.
    { apply issubset_spec with (x := "d") in HF; [done|set_solver]. }
    destruct (issubset ["t"; "d"; "start"; "end"] (dom f)) eqn:HD.
    { apply issubset_spec with (x := "d") in HD; [done|set_solver]. }
    destruct (issubset ["t"; "start"; "end"] (dom f)) eqn:HT; [done|].
    apply not_true_iff_false in HT. exfalso. apply HT, issubset_spec.
    intros x. rewrite !elem_of_cons, elem_of_nil.
    intros [->|[->|[->|[]]]]; apply elem_of_dom; eauto. }
  unfold open_and_load. rewrite (init_manual f "Ts" Hex Hm), bind_Ok.
  unfold load; simpl. rewrite (load_time_support_Some f s e Hs He), bind_Ok.
  by rewrite (getitem_Some _ _ _ Ht).
Qed.

Lemma load_timestamps_witness :
  open_and_load ex_ts_only
  = Ok (LTs (np.array [real 1 10; real 2 10])
            (nap.mkIntervalSet (np.array [int 0]) (np.array [int 2]))).
Proof. apply load_timestamps; by_evaluation. Defined.

(** X8. An archive without a declared type that has start and end and no t
    is loaded as the time support of its start and end alone, whatever else
    it holds (d, index, columns, ...). *)
Theorem load_intervals (f : gmap string ndarray) (s e : ndarray) :
  explicit_type f = Ok "" →
  f !! "start" = Some s → f !! "end" = Some e →
  "t" ∉ dom f →
  open_and_load f = Ok (LIntervalSet (nap.mkIntervalSet s e)).
Proof.
  intros Hex Hs He Ht.
  assert (manual_type f = Ok "IntervalSet") as Hm.
  { unfold manual_type.
    destruct (issubset ["t"; "start"; "end"; "index"] (dom f)) eqn:HG.
    { apply issubset_spec with (x := "t") in HG; [done|set_solver]. }
    destruct (issubset ["t"; "d"; "start"; "end"; "columns"] (dom f)) eqn:HF.
    { apply issubset_spec with (x := "t") in HF; [done|set_solver]. }
    destruct (issubset ["t"; "d"; "start"; "end"] (dom f)) eqn:HD.
    { apply issubset_spec with (x := "t") in HD; [done|set_solver]. }
    destruct (issubset ["t"; "start"; "end"] (dom f)) eqn:HT.
    { apply issubset_spec with (x := "t") in HT; [done|set_solver]. }
    destruct (issubset ["start"; "end"] (dom f)) eqn:HI; [done|].
    apply not_true_iff_false in HI. exfalso. apply HI, issubset_spec.
    intros x. rewrite !elem_of_cons, elem_of_nil.
    intros [->|[->|[]]]; apply elem_of_dom; eauto. }
  unfold open_and_load. rewrite (init_manual f "IntervalSet" Hex Hm), bind_Ok.
  unfold load; simpl. by rewrite (load_time_support_Some f s e Hs He).
Qed.

Lemma load_intervals_witness :
  open_and_load ex_intervals
  = Ok (LIntervalSet (nap.mkIntervalSet (np.array [int 0; int 5])
                                        (np.array [int 2; int 8]))).
Proof. apply load_intervals; by_evaluation. Defined.



(** ** Further properties of the groups load returns *)

Lemma load_group_inv (self : NPZFile) (g : nap.TsGroup) :
  load self = Ok (LTsGroup g) →
  ∃ s e times index data keys ks,
    file self !! "start" = Some s ∧ file self !! "end" = Some e ∧
    file self !! "t" = Some times ∧ file self !! "index" = Some index ∧
    load_data (file self) = Ok data ∧
    load_keys (file self) index = Ok keys ∧ np.iter keys = Ok ks ∧
    fill_group times index data (nap.mkIntervalSet s e) ks [] = Ok (nap.data g) ∧
    fill_metainfo (nap.len g) (candidates (file self)) ∅ = Ok (nap.metadata g) ∧
    nap.group_time_support g = nap.mkIntervalSet s e ∧
    nap.skip_validation g = true.
Proof.
  unfold load, load_time_support, getitem.
  case_bool_decide; [done|].
  destruct (file self !! "start") as [s|]; [|done]. rewrite bind_Ok.
  destruct (file self !! "end") as [e|]; [|done]. rewrite !bind_Ok.
  case_bool_decide.
  - destruct (file self !! "t") as [times|]; [|done]. rewrite bind_Ok.
    destruct (file self !! "index") as [index|]; [|done]. rewrite bind_Ok.
    destruct (load_data (file self)) as [data|]; [|done]. rewrite bind_Ok.
    destruct (load_keys (file self) index) as [keys|] eqn:Hkeys; [|done].
    rewrite bind_Ok.
    destruct (np.iter keys) as [ks|] eqn:Hks; [|done]. rewrite bind_Ok.
    destruct (fill_group _ _ _ _ ks []) as [group|] eqn:Hgroup; [|done].
    rewrite bind_Ok. unfold nap.len at 1; simpl.
    destruct (fill_metainfo _ _ _) as [mi|] eqn:Hmi; [|done]. rewrite bind_Ok.
    intros [= <-]. exists s, e, times, index, data, keys, ks.
    unfold nap.len; simpl. by repeat split.
  - repeat case_bool_decide;
      repeat (match goal with
              | |- context [file self !! ?k] => destruct (file self !! k)
              end; rewrite ?bind_Ok, ?bind_Raise); done.
Qed.



Lemma dict_set_elem {V : Type} (k k' : scalar) (v v' : V) d :
  (k', v') ∈ dict_set k v d → (k', v') = (k, v) ∨ (k', v') ∈ d.
Proof.
  induction d as [|[k0 v0] d IH]; simpl.
  - intros ?%list_elem_of_singleton. by left.
  - destruct (decide (k0 = k)) as [->|Hne]; rewrite !elem_of_cons.
    + intros [?|?]; [by left|right; by right].
    + intros [?|Hin]; [right; by left|].
      destruct (IH Hin) as [?|?]; [by left|right; by right].
Qed.

Lemma member_shape times index data tsup k m :
  member times index data tsup k = Ok m →
  nap.time_support m = tsup ∧ is_Tsd m = bool_decide (is_Some data) ∧
  np.getitem_mask times (np.eq index k) = Ok (nap.index m).
Proof.
  unfold member. destruct data as [d|].
  - destruct (np.getitem_mask times _) as [t|]; [|done]. rewrite bind_Ok.
    destruct (np.getitem_mask d _) as [d'|]; [|done]. rewrite bind_Ok.
    intros [= <-]. split; [done|]. split; [|done].
    rewrite bool_decide_eq_true_2; [done|eauto].
  - destruct (np.getitem_mask times _) as [t|]; [|done]. rewrite bind_Ok.
    intros [= <-]. split; [done|]. split; [|done].
    rewrite bool_decide_eq_false_2; [done|]. by intros [? ?].
Qed.

Lemma fill_group_members times index data tsup ks g0 g :
  fill_group times index data tsup ks g0 = Ok g →
  ∀ k m, (k, m) ∈ g →
    (k, m) ∈ g0 ∨ member times index data tsup k = Ok m.
Proof.
  revert g0. induction ks as [|[k0|b] ks IH]; intros g0; simpl.
  - intros [= <-] k m ?. by left.
  - destruct (member times index data tsup k0) as [m0|] eqn:Hm0; [|done].
    rewrite bind_Ok. intros Hfill k m Hin.
    destruct (IH _ Hfill k m Hin) as [Hin'|?]; [|by right].
    apply dict_set_elem in Hin' as [[= -> ->]|?]; [by right|by left].
  - done.
Qed.

Lemma load_data_is_Some (f : gmap string ndarray) data :
  load_data f = Ok data → (is_Some data ↔ "d" ∈ dom f).
Proof.
  unfold load_data. case_bool_decide as Hd.
  - destruct (getitem f "data"); [|done]. rewrite bind_Ok.
    intros [= <-]. split; eauto.
  - intros [= <-]. split; [by intros [? ?]|done].
Qed.

(** X11. Whenever [load] returns a group, on any archive, all its members
    and the group itself carry one and the same time support, the one made
    of start and end; the members are all [Tsd] when the archive has an
    entry d and all [Ts] when it has none, never a mixture; and the
    timestamps of the member of an identifier [k] are [t[index == k]]. *)
Theorem group_members_uniform (self : NPZFile) (g : nap.TsGroup) :
  load self = Ok (LTsGroup g) →
  ∃ s e times index,
    file self !! "start" = Some s ∧ file self !! "end" = Some e ∧
    file self !! "t" = Some times ∧ file self !! "index" = Some index ∧
    nap.group_time_support g = nap.mkIntervalSet s e ∧
    ∀ k m, (k, m) ∈ nap.data g →
      nap.time_support m = nap.mkIntervalSet s e ∧
      is_Tsd m = bool_decide ("d" ∈ dom (file self)) ∧
      np.getitem_mask times (np.eq index k) = Ok (nap.index m).
Proof.
  intros (s & e & times & index & data & keys & ks & Hs & He & Ht & Hi & Hd &
          _ & _ & Hfill & _ & Hts & _)%load_group_inv.
  exists s, e, times, index. repeat (split; [done|]). intros k m Hin.
  destruct (fill_group_members _ _ _ _ _ _ _ Hfill k m Hin) as [Hnil|Hm].
  { by apply elem_of_nil in Hnil. }
  apply member_shape in Hm as (? & Hk & ?). split; [done|]. split; [|done].
  rewrite Hk. apply bool_decide_ext. by apply load_data_is_Some.
Qed.

Lemma group_members_uniform_witness :
  ∃ s e times index,
    file (mkNPZFile ex_group "TsGroup") !! "start" = Some s ∧
    file (mkNPZFile ex_group "TsGroup") !! "end" = Some e ∧
    file (mkNPZFile ex_group "TsGroup") !! "t" = Some times ∧
    file (mkNPZFile ex_group "TsGroup") !! "index" = Some index ∧
    nap.group_time_support ex_group_loaded = nap.mkIntervalSet s e ∧
    ∀ k m, (k, m) ∈ nap.data ex_group_loaded →
      nap.time_support m = nap.mkIntervalSet s e ∧
      is_Tsd m = bool_decide ("d" ∈ dom (file (mkNPZFile ex_group "TsGroup"))) ∧
      np.getitem_mask times (np.eq index k) = Ok (nap.index m).
Proof. apply group_members_uniform. by_evaluation. Defined.

(** ** Groups read from vectors *)

Lemma dict_set_fresh {V : Type} (k : scalar) (v : V) d :
  k ∉ d.*1 → dict_set k v d = d ++ [(k, v)].
Proof.
  induction d as [|[k0 v0] d IH]; csimpl; [done|].
  rewrite not_elem_of_cons. intros [Hne Hk].
  rewrite decide_False by done. by rewrite IH.
Qed.

Lemma assign_all_fresh {V : Type} (m : scalar → V) ks d :
  NoDup (d.*1 ++ ks) → assign_all m ks d = d ++ ((λ k, (k, m k)) <$> ks).
Proof.
  revert d. induction ks as [|k ks IH]; intros d Hnd.
  - csimpl. by rewrite app_nil_r.
  - assert (k ∉ d.*1) as Hk.
    { apply NoDup_app in Hnd as (_ & Hdis & _). intros Hin.
      apply (Hdis k Hin). apply elem_of_cons. by left. }
    change (assign_all m (k :: ks) d)
      with (assign_all m ks (dict_set k (m k) d)).
    rewrite dict_set_fresh by done.
    rewrite IH; [csimpl; by rewrite <-app_assoc|].
    rewrite fmap_app. csimpl. by rewrite <-app_assoc.
Qed.

Lemma assign_all_pair {V : Type} (m : scalar → V) ks d k v :
  (k, v) ∈ assign_all m ks d → (k, v) ∈ d ∨ (k ∈ ks ∧ v = m k).
Proof.
  revert d. induction ks as [|k0 ks IH]; intros d; [by left|].
  change (assign_all m (k0 :: ks) d)
    with (assign_all m ks (dict_set k0 (m k0) d)).
  intros [Hin|[Hin ->]]%IH.
  - apply dict_set_elem in Hin as [[= -> ->]|?]; [|by left].
    right. split; [apply elem_of_cons; by left|done].
  - right. split; [apply elem_of_cons; by right|done].
Qed.

Lemma at_positions_cons i (ix : list scalar) k x (xs : list scalar) :
  at_positions (i :: ix) k (x :: xs)
  = (if decide (i = k) then [x] else []) ++ at_positions ix k xs.
Proof.
  unfold at_positions. csimpl. rewrite filter_cons. simpl.
  by destruct (decide (i = k)).
Qed.

Lemma concat_insert_once (i x : scalar) (g : scalar → list scalar) u :
  NoDup u → i ∈ u →
  concat ((λ k, (if decide (i = k) then [x] else []) ++ g k) <$> u)
  ≡ₚ x :: concat (g <$> u).
Proof.
  induction u as [|k0 u IH]; intros Hnd Hin; [by apply elem_of_nil in Hin|].
  apply NoDup_cons in Hnd as [Hk0 Hnd]. csimpl.
  destruct (decide (i = k0)) as [->|Hne].
  - rewrite (list_fmap_ext _ g u); [done|].
    intros j k Hk. rewrite decide_False; [done|].
    intros <-. apply Hk0. by eapply list_elem_of_lookup_2.
  - simpl. rewrite IH; [|done|].
    + by rewrite Permutation_middle.
    + apply elem_of_cons in Hin as [?|?]; done.
Qed.

Lemma concat_at_positions (u ix ts : list scalar) :
  NoDup u → (∀ x, x ∈ ix → x ∈ u) → length ts = length ix →
  concat ((λ k, at_positions ix k ts) <$> u) ≡ₚ ts.
Proof.
  intros Hnd. revert ts.
  induction ix as [|i ix IH]; intros [|t ts] Hsub Hlen; simplify_eq/=.
  - clear. induction u as [|k u IHu]; [done|]. csimpl. by rewrite IHu.
  - rewrite (list_fmap_ext _
       (λ k, (if decide (i = k) then [t] else []) ++ at_positions ix k ts) u)
      by (intros; apply at_positions_cons).
    rewrite concat_insert_once; [|done|apply Hsub; apply elem_of_cons; by left].
    f_equiv. apply IH; [|done]. intros x Hx. apply Hsub.
    apply elem_of_cons. by right.
Qed.

Lemma elem_of_concat (x : scalar) (ls : list (list scalar)) :
  x ∈ concat ls ↔ ∃ l, x ∈ l ∧ l ∈ ls.
Proof.
  induction ls as [|l ls IH]; simpl.
  - rewrite elem_of_nil. split; [done|]. by intros (l & _ & ?%elem_of_nil).
  - rewrite elem_of_app, IH. split.
    + intros [?|(l' & ? & ?)].
      * exists l. split; [done|]. apply elem_of_cons. by left.
      * exists l'. split; [done|]. apply elem_of_cons. by right.
    + intros (l' & ? & [->|?]%elem_of_cons); [by left|right; by exists l'].
Qed.

Lemma fill_metainfo_raises n (es : list (string * ndarray)) m0 k a :
  (k, a) ∈ es → np.ndim a = 0 → fill_metainfo n es m0 = Raise ArrayError.
Proof.
  intros Hin Ha. revert m0.
  induction es as [|[k1 a1] es IH]; intros m0; [by apply elem_of_nil in Hin|].
  simpl. unfold np.len, np.ndim in *.
  destruct (shape a1) as [|l sh] eqn:Hsh; [done|]. rewrite bind_Ok.
  apply IH. apply elem_of_cons in Hin as [[= -> ->]|?]; [|done].
  by rewrite Hsh in Ha.
Qed.

Section group_vectors.
Variables (f : gmap string ndarray) (self : NPZFile).
Variables (ts ix : list scalar) (ds : option (list scalar)) (s e : ndarray).

Hypothesis Hinit : init f = Ok self.
Hypothesis Htype : type self = "TsGroup".
Hypothesis Hstart : f !! "start" = Some s.
Hypothesis Hend : f !! "end" = Some e.
Hypothesis Ht : f !! "t" = Some (np.array ts).
Hypothesis Hindex : f !! "index" = Some (np.array ix).
Hypothesis Hparallel : length ts = length ix.
Hypothesis Hdata :
  match ds with
  | Some ds' =>
      "d" ∈ dom f ∧ f !! "data" = Some (np.array ds') ∧ length ds' = length ix
  | None => "d" ∉ dom f
  end.
Hypothesis Hkeys : ∀ a, f !! "keys" = Some a → np.ndim a = 1.

Lemma load_group_loops :
  load self
  = fill_metainfo
      (length (assign_all (member_of ts ix ds (nap.mkIntervalSet s e))
                          (identifiers f ix) []))
      (candidates f) ∅ ≫= λ metainfo,
    Ok (LTsGroup (nap.mkTsGroup
          (assign_all (member_of ts ix ds (nap.mkIntervalSet s e))
                      (identifiers f ix) [])
          (nap.mkIntervalSet s e) true metainfo)).
Proof.
  pose proof (init_file _ _ Hinit) as Hf.
  destruct self as [f' ty]; simpl in *; subst f' ty.
  destruct (load_keys_iter f ix Hkeys) as (a & Hlk & Hit).
  unfold load; simpl.
  rewrite (load_time_support_Some f s e Hstart Hend), bind_Ok.
  rewrite (getitem_Some _ _ _ Ht), bind_Ok.
  rewrite (getitem_Some _ _ _ Hindex), bind_Ok.
  rewrite (load_data_vectors f ix ds Hdata), bind_Ok, Hlk, bind_Ok, Hit, bind_Ok.
  rewrite (fill_group_scalars _ _ _ _
             (member_of ts ix ds (nap.mkIntervalSet s e))), bind_Ok.
  - done.
  - intros k. apply member_vectors; [done|].
    intros ds' ->. by destruct Hdata as (_ & _ & ?).
Qed.

(** X12. A group archive without the entry keys is loaded without losing or
    repeating a timestamp: the timestamps of the members, taken together,
    are those of t. *)
Theorem group_keeps_all_timestamps :
  map_Forall (λ k a, k ∉ reserved → np.ndim a ≠ 0) f →
  "keys" ∉ dom f →
  ∃ g, load self = Ok (LTsGroup g) ∧ all_timestamps g ≡ₚ ts.
Proof.
  intros Hmeta Hk.
  destruct (fill_metainfo_Ok
              (length (assign_all (member_of ts ix ds (nap.mkIntervalSet s e))
                                  (identifiers f ix) []))
              (candidates f) ∅) as [mi Hmi].
  { intros k a [Hka Hkr]%candidates_elem. by apply (Hmeta k a). }
  eexists. split; [by rewrite load_group_loops, Hmi, bind_Ok|].
  unfold all_timestamps; simpl.
  apply not_elem_of_dom in Hk.
  destruct (unique_spec (np.array ix)) as (u & Hu & _ & Hnd & Helem).
  assert (identifiers f ix = u) as ->.
  { unfold identifiers. by rewrite Hk, Hu. }
  rewrite assign_all_fresh by done. simpl.
  rewrite <-list_fmap_compose.
  rewrite (list_fmap_ext _ (λ k, at_positions ix k ts) u).
  - apply concat_at_positions; [done| |done]. intros x Hx. by apply Helem.
  - intros i k _. simpl. by rewrite member_of_index.
Qed.

(** X13. When a group archive has the entry keys, only the identifiers it
    lists get a member: the timestamps whose index is not listed are in no
    member of the group. *)
Theorem group_keys_restrict (a : ndarray) :
  map_Forall (λ k a, k ∉ reserved → np.ndim a ≠ 0) f →
  f !! "keys" = Some a →
  ∃ g, load self = Ok (LTsGroup g) ∧
    (∀ k, k ∉ flat a → dict_get k (nap.data g) = None) ∧
    (∀ x, x ∈ all_timestamps g →
       ∃ i k, k ∈ flat a ∧ ix !! i = Some k ∧ ts !! i = Some x).
Proof.
  intros Hmeta Ha.
  destruct (fill_metainfo_Ok
              (length (assign_all (member_of ts ix ds (nap.mkIntervalSet s e))
                                  (identifiers f ix) []))
              (candidates f) ∅) as [mi Hmi].
  { intros k a' [Hka Hkr]%candidates_elem. by apply (Hmeta k a'). }
  eexists. split; [by rewrite load_group_loops, Hmi, bind_Ok|].
  assert (identifiers f ix = flat a) as ->.
  { unfold identifiers. by rewrite Ha. }
  simpl. split.
  - intros k Hk. rewrite assign_all_get. by rewrite decide_False.
  - intros x. unfold all_timestamps; simpl.
    intros (l & Hx & ([k m] & -> & Hkm)%list_elem_of_fmap)%elem_of_concat.
    apply assign_all_pair in Hkm as [Hnil|[Hk ->]];
      [by apply elem_of_nil in Hnil|].
    simpl in Hx. rewrite member_of_index in Hx. simpl in Hx.
    apply at_positions_elem in Hx as (i & ? & ?). by exists i, k.
Qed.

(** X14. The name type is not reserved: the ["type"] entry of a group
    archive, a vector of one string, is attached to the group as a metadata
    column exactly when the group has one member. *)
Theorem group_type_entry_as_metadata (ty : ndarray) :
  map_Forall (λ k a, k ∉ reserved → np.ndim a ≠ 0) f →
  f !! "type" = Some ty → np.len ty = Ok 1 →
  ∃ g, load self = Ok (LTsGroup g) ∧
    (nap.metadata g !! "type" = Some ty ↔ nap.len g = 1).
Proof.
  intros Hmeta Hty Hlen.
  destruct (fill_metainfo_Ok
              (length (assign_all (member_of ts ix ds (nap.mkIntervalSet s e))
                                  (identifiers f ix) []))
              (candidates f) ∅) as [mi Hmi].
  { intros k a' [Hka Hkr]%candidates_elem. by apply (Hmeta k a'). }
  eexists. split; [by rewrite load_group_loops, Hmi, bind_Ok|].
  unfold nap.len; simpl.
  rewrite (fill_metainfo_lookup _ _ _ _ Hmi (candidates_NoDup f)
             (λ k _, lookup_empty k)).
  rewrite lookup_empty, candidates_elem, Hlen. split.
  - intros [?|[_ [= ?]]]; done.
  - intros <-. right. split; [|done]. split; [done|].
    apply (bool_decide_unpack _). by vm_compute.
Qed.

(** X15. One entry without a length is enough for the whole group to be
    refused: if a name that is not reserved holds a 0-d array, [load] raises
    when it takes its [len], although the members were already built. *)
Theorem group_scalar_entry_raises (k : string) (a : ndarray) :
  f !! k = Some a → k ∉ reserved → np.ndim a = 0 →
  load self = Raise ArrayError.
Proof.
  intros Hk Hres Ha. rewrite load_group_loops.
  rewrite (fill_metainfo_raises _ _ _ k a); [done| |done].
  by apply candidates_elem.
Qed.

End group_vectors.

Lemma group_keeps_all_timestamps_witness :
  ∃ g, load (mkNPZFile ex_group "TsGroup") = Ok (LTsGroup g) ∧
       all_timestamps g ≡ₚ [real 1 10; real 2 10; real 11 10].
Proof.
  apply (group_keeps_all_timestamps ex_group (mkNPZFile ex_group "TsGroup")
           [real 1 10; real 2 10; real 11 10] [int 0; int 0; int 1] None
           (np.array [int 0]) (np.array [int 2])); group_archive.
Defined.

Lemma group_keys_restrict_witness :
  ∃ g, load (mkNPZFile ex_keys_subset "TsGroup") = Ok (LTsGroup g) ∧
    (∀ k, k ∉ flat (np.array [int 1]) → dict_get k (nap.data g) = None) ∧
    (∀ x, x ∈ all_timestamps g →
       ∃ i k, k ∈ flat (np.array [int 1]) ∧
              [int 0; int 0; int 1] !! i = Some k ∧
              [real 1 10; real 2 10; real 11 10] !! i = Some x).
Proof.
  apply (group_keys_restrict ex_keys_subset
           (mkNPZFile ex_keys_subset "TsGroup")
           [real 1 10; real 2 10; real 11 10] [int 0; int 0; int 1] None
           (np.array [int 0]) (np.array [int 2])); group_archive.
Defined.

Lemma group_type_entry_as_metadata_witness :
  ∃ g, load (mkNPZFile ex_one_member "TsGroup") = Ok (LTsGroup g) ∧
    (nap.metadata g !! "type" = Some (np.array [SStr "TsGroup"]) ↔
     nap.len g = 1).
Proof.
  apply (group_type_entry_as_metadata ex_one_member
           (mkNPZFile ex_one_member "TsGroup")
           [real 1 10; real 2 10] [int 4; int 4] None
           (np.array [int 0]) (np.array [int 2])); group_archive.
Defined.

Lemma group_scalar_entry_raises_witness :
  load (mkNPZFile ex_scalar_entry "TsGroup") = Raise ArrayError.
Proof.
  apply (group_scalar_entry_raises ex_scalar_entry
           (mkNPZFile ex_scalar_entry "TsGroup")
           [real 1 10; real 2 10; real 11 10] [int 0; int 0; int 1] None
           (np.array [int 0]) (np.array [int 2]) ltac:(group_archive)
           ltac:(group_archive) ltac:(group_archive) ltac:(group_archive)
           ltac:(group_archive) ltac:(group_archive) ltac:(group_archive)
           ltac:(group_archive) ltac:(group_archive)
           "name" (NdArray [] [SStr "session"])); group_archive.
Defined.

(** ** Group archives load cannot read *)

Lemma prefix_of_singleton (a b : nat) : [a] `prefix_of` [b] → a = b.
Proof. intros [k Hk]. by injection Hk. Qed.

(** X16. When t and index are vectors of different lengths and there is an
    identifier to build a member for, [load] raises: the selection
    [t[index == k]] is refused. No group with misplaced timestamps is ever
    returned. *)
Theorem group_index_mismatch (f : gmap string ndarray) (self : NPZFile)
    (ts ix : list scalar) :
  init f = Ok self → type self = "TsGroup" →
  "start" ∈ dom f → "end" ∈ dom f →
  f !! "t" = Some (np.array ts) → f !! "index" = Some (np.array ix) →
  length ts ≠ length ix →
  "d" ∉ dom f →
  (∀ a, f !! "keys" = Some a → np.ndim a = 1) →
  identifiers f ix ≠ [] →
  load self = Raise ArrayError.
Proof.
  intros Hinit Hty Hs He Ht Hi Hlen Hd Hkeys Hids.
  pose proof (init_file _ _ Hinit) as Hf.
  destruct self as [f' ty]; simpl in *; subst f' ty.
  destruct (getitem_dom f "start" Hs) as (s & Hs' & _).
  destruct (getitem_dom f "end" He) as (e & He' & _).
  destruct (load_keys_iter f ix Hkeys) as (a & Hlk & Hit).
  unfold load; simpl.
  rewrite (load_time_support_Some f s e Hs' He'), bind_Ok.
  rewrite (getitem_Some _ _ _ Ht), bind_Ok, (getitem_Some _ _ _ Hi), bind_Ok.
  rewrite (load_data_vectors f ix None Hd), bind_Ok, Hlk, bind_Ok, Hit, bind_Ok.
  destruct (identifiers f ix) as [|k ks]; [done|]. csimpl.
  unfold np.getitem_mask, np.array; simpl.
  rewrite bool_decide_eq_false_2; [done|].
  intros Hp%prefix_of_singleton. by rewrite Hp in Hlen.
Qed.

Lemma group_index_mismatch_witness :
  load (mkNPZFile ex_short_index "TsGroup") = Raise ArrayError.
Proof.
  apply (group_index_mismatch ex_short_index
           (mkNPZFile ex_short_index "TsGroup")
           [real 1 10; real 2 10; real 11 10] [int 0; int 0]); group_archive.
Defined.

(** X17. The entry keys has to be a vector: when it is a 0-d array, or an
    array of two or more dimensions with at least one row, [load] raises,
    for it cannot iterate over the first and cannot use the rows of the
    second as dictionary keys. *)
Theorem group_keys_not_a_vector (f : gmap string ndarray) (self : NPZFile)
    (a : ndarray) :
  init f = Ok self → type self = "TsGroup" →
  "start" ∈ dom f → "end" ∈ dom f → "t" ∈ dom f → "index" ∈ dom f →
  "d" ∉ dom f →
  f !! "keys" = Some a →
  np.ndim a = 0 ∨ (∃ n r rest, shape a = S n :: r :: rest) →
  load self = Raise ArrayError.
Proof.
  intros Hinit Hty Hs He Ht Hi Hd Ha Hshape.
  pose proof (init_file _ _ Hinit) as Hf.
  destruct self as [f' ty]; simpl in *; subst f' ty.
  destruct (getitem_dom f "start" Hs) as (s & Hs' & _).
  destruct (getitem_dom f "end" He) as (e & He' & _).
  destruct (getitem_dom f "t" Ht) as (t & _ & Hgt).
  destruct (getitem_dom f "index" Hi) as (ix & _ & Hgi).
  unfold load; simpl.
  rewrite (load_time_support_Some f s e Hs' He'), bind_Ok.
  rewrite Hgt, bind_Ok, Hgi, bind_Ok.
  unfold load_data. rewrite bool_decide_eq_false_2 by done. rewrite bind_Ok.
  unfold load_keys. rewrite bool_decide_eq_true_2 by (apply elem_of_dom; eauto).
  rewrite (getitem_Some _ _ _ Ha), bind_Ok.
  unfold np.iter, np.ndim in *.
  destruct Hshape as [Hnd|(n & r & rest & ->)].
  - by destruct (shape a).
  - by rewrite bind_Ok.
Qed.

Lemma group_keys_not_a_vector_witness :
  load (mkNPZFile ex_keys_0d "TsGroup") = Raise ArrayError.
Proof.
  apply (group_keys_not_a_vector ex_keys_0d (mkNPZFile ex_keys_0d "TsGroup")
           (NdArray [] [int 0])); try group_archive.
  left. reflexivity.
Defined.

(** X18. A group archive with an empty index and no entry keys gives a
    group without members, whatever its t holds: t is not even compared
    with index. Its metadata are the entries of length 0. *)
Theorem group_empty_index (f : gmap string ndarray) (self : NPZFile) :
  init f = Ok self → type self = "TsGroup" →
  "start" ∈ dom f → "end" ∈ dom f → "t" ∈ dom f →
  f !! "index" = Some (np.array []) →
  "d" ∉ dom f → "keys" ∉ dom f →
  map_Forall (λ k a, k ∉ reserved → np.ndim a ≠ 0) f →
  ∃ g, load self = Ok (LTsGroup g) ∧ nap.data g = [] ∧
       ∀ k a, nap.metadata g !! k = Some a → np.len a = Ok 0.
Proof.
  intros Hinit Hty Hs He Ht Hi Hd Hk Hmeta.
  pose proof (init_file _ _ Hinit) as Hf.
  destruct self as [f' ty]; simpl in *; subst f' ty.
  destruct (getitem_dom f "start" Hs) as (s & Hs' & _).
  destruct (getitem_dom f "end" He) as (e & He' & _).
  destruct (getitem_dom f "t" Ht) as (t & _ & Hgt).
  destruct (fill_metainfo_Ok 0 (candidates f) ∅) as [mi Hmi].
  { intros k a [Hka Hkr]%candidates_elem. by apply (Hmeta k a). }
  exists (nap.mkTsGroup [] (nap.mkIntervalSet s e) true mi).
  split; [|split; [done|]].
  - unfold load; simpl.
    rewrite (load_time_support_Some f s e Hs' He'), bind_Ok.
    rewrite Hgt, bind_Ok, (getitem_Some _ _ _ Hi), bind_Ok.
    unfold load_data. rewrite bool_decide_eq_false_2 by done. rewrite bind_Ok.
    unfold load_keys. rewrite bool_decide_eq_false_2 by done. rewrite bind_Ok.
    change (np.iter (np.unique (np.array []))) with (Ok (A:=list item) []).
    rewrite bind_Ok. simpl. rewrite ?bind_Ok.
    unfold nap.len; simpl. by rewrite Hmi.
  - simpl. intros k a Hka.
    apply (fill_metainfo_lookup _ _ _ _ Hmi (candidates_NoDup f)
             (λ k _, lookup_empty k)) in Hka as [Hka|[_ ?]]; [|done].
    by rewrite lookup_empty in Hka.
Qed.

Lemma group_empty_index_witness :
  ∃ g, load (mkNPZFile ex_empty_index "TsGroup") = Ok (LTsGroup g) ∧
       nap.data g = [] ∧
       ∀ k a, nap.metadata g !! k = Some a → np.len a = Ok 0.
Proof.
  apply (group_empty_index ex_empty_index); group_archive.
Defined.

(** ** A declared type in load *)

(** X19. The declared type decides what [load] reads: an archive that
    declares ["Ts"] is loaded as the timestamps of its t on the time support
    of its start and end, and its other entries (an index, a d) are left
    aside, even when its names are those of a group. *)
Theorem declared_Ts_loads_timestamps (f : gmap string ndarray) (t s e : ndarray) :
  f !! "type" = Some (np.array [SStr "Ts"]) →
  f !! "t" = Some t → f !! "start" = Some s → f !! "end" = Some e →
  open_and_load f = Ok (LTs t (nap.mkIntervalSet s e)).
Proof.
  intros Hty Ht Hs He. unfold open_and_load.
  rewrite (init_explicit f "Ts"); [|apply explicit_type_declared|done].
  - rewrite bind_Ok. unfold load; simpl.
    rewrite (load_time_support_Some f s e Hs He), bind_Ok.
    by rewrite (getitem_Some _ _ _ Ht).
  - done.
  - set_solver.
Qed.

Lemma declared_Ts_loads_timestamps_witness :
  open_and_load ex_declared_Ts
  = Ok (LTs (np.array [real 1 10; real 2 10; real 11 10])
            (nap.mkIntervalSet (np.array [int 0]) (np.array [int 2]))).
Proof. apply declared_Ts_loads_timestamps; by_evaluation. Defined.
